(** * setup-crate: release resolution and installation

    A shallow embedding of [setup-crate/src/index.ts] (the library:
    [getTargets], [getRelease], [handleBadBinaryPermissions],
    [checkOrInstallTool]) and of [src/index.ts] (the action's [main]),
    together with the properties the specification states about them.

    Conventions.
    - JavaScript strings are [string]; [undefined] is [None]; the
      truthiness tests of the source ([versionSpec ? .. : ..], [!dir],
      [bin ? bin : ..]) are written out with [truthy] / [otruthy].
    - [throw new Error(msg)] is [Throw (Error msg)]; a rejected promise
      that is awaited is the same thing.  A rejected promise that nobody
      awaits ends the process (Node 15 and later): that is [Exit], which
      no [try] catches.
    - The asynchronous code runs one call after the other ([await]), so
      it is embedded in a state-and-error monad [M] over a world the
      external packages act on; the one promise the source does not
      await is marked [unawaited].  Each call to an external package
      appends one [Event] to a log, so that "no network request" or "the
      directory passed to the cache" are statements about that log.
    - The packages themselves ([process], [semver], [@octokit/rest],
      [@actions/tool-cache], [fs], [path]) are not part of the
      repository, and neither is the Unicode case mapping behind
      [String.prototype.toLowerCase]: they are the fields of a record
      [Services], and the theorems hold for every implementation of it.  [Sim] is one small
      implementation, used to run the program on examples. *)

From Stdlib Require Import String Ascii List Bool Arith Lia.
Import ListNotations.
Open Scope string_scope.
Open Scope list_scope.

Set Implicit Arguments.

(* ------------------------------------------------------------------ *)
(** ** JavaScript string primitives used by the source *)

Module Js.

(** Truthiness of a string: only the empty string is falsy. *)
Definition truthy (s : string) : bool :=
  match s with EmptyString => false | String _ _ => true end.

(** Truthiness of an optional string: [undefined] and [EmptyString] are falsy. *)
Definition otruthy (o : option string) : bool :=
  match o with None => false | Some s => truthy s end.

(** [a || b] on strings. *)
Definition or_else (o : option string) (d : string) : string :=
  match o with
  | Some s => if truthy s then s else d
  | None => d
  end.

(** Interpolation of a possibly-undefined string in a template literal. *)
Definition show (o : option string) : string :=
  match o with Some s => s | None => "undefined" end.

(** [s.startsWith(p)] *)
Fixpoint startsWith (s p : string) : bool :=
  match p, s with
  | EmptyString, _ => true
  | String c p', String d s' => Ascii.eqb c d && startsWith s' p'
  | String _ _, EmptyString => false
  end.

(** [s.includes(t)]: [t] occurs in [s] as a contiguous substring. *)
Fixpoint includes (s t : string) : bool :=
  startsWith s t ||
  match s with
  | EmptyString => false
  | String _ s' => includes s' t
  end.

(** [s.endsWith(suf)] *)
Fixpoint endsWith (s suf : string) : bool :=
  String.eqb s suf ||
  match s with
  | EmptyString => false
  | String _ s' => endsWith s' suf
  end.

(** [s.replace(/^v/, EmptyString)]: drop one leading lower-case [v]. *)
Definition strip_v (s : string) : string :=
  match s with
  | String "v"%char s' => s'
  | _ => s
  end.

(** [s.split(sep)] for a one-character separator: every occurrence
    splits, and the pieces may be empty. *)
Fixpoint split_all (sep : ascii) (s : string) : list string :=
  match s with
  | EmptyString => [EmptyString]
  | String c s' =>
      if Ascii.eqb c sep then EmptyString :: split_all sep s'
      else match split_all sep s' with
           | [] => [String c EmptyString]
           | p :: ps => String c p :: ps
           end
  end.

(** [s.split(sep, limit)]: the first [limit] pieces of [s.split(sep)]. *)
Definition split (sep : ascii) (limit : nat) (s : string) : list string :=
  firstn limit (split_all sep s).

(** [arr[i]] of an array of strings; out of range gives [undefined]. *)
Definition at_index (l : list string) (i : nat) : option string :=
  nth_error l i.

End Js.

(* ------------------------------------------------------------------ *)
(** ** Errors and results *)

(** The values thrown: the code throws [new Error(msg)] only, and the
    packages reject with instances of [Error], so that the test
    [err instanceof Error] of the action's [catch] holds of every error
    it catches. *)
Inductive exn : Type := Error (message : string).

Definition message (e : exn) : string := let 'Error m := e in m.

(** How a call ends: with a value; with an error thrown, or a promise
    rejected, to whoever awaits it; or with the end of the process on a
    rejection that nobody awaits, or inside a package. *)
Inductive result (A : Type) : Type :=
| Ok (a : A)
| Throw (e : exn)
| Exit (e : exn).
Arguments Ok {A} a.
Arguments Throw {A} e.
Arguments Exit {A} e.

(** The error kinds of the specification, as the [Error] values the code
    throws for them. *)
Definition UnsupportedPlatform (arch platform : string) : exn :=
  Error ("failed to determine any valid targets; arch = " ++ arch
         ++ ", platform = " ++ platform).

Definition NoMatchingRelease (name : string) (versionSpec : option string) : exn :=
  Error ("no release for " ++ name ++ " matching version specifier "
         ++ Js.show versionSpec).

Definition StagingFailed : exn :=
  Error "Failed to create temporary directory for binary extraction".

(* ------------------------------------------------------------------ *)
(** ** Target Resolver: [getTargets] (index.ts, lines 15-36) *)

Definition getTargets (arch platform : string) : result (list string) :=
  let x64 :=
    if arch =? "x64" then
      if platform =? "linux" then
        Some ["x86_64-unknown-linux-musl"; "x86_64-unknown-linux-gnu"]
      else if platform =? "darwin" then
        Some ["x86_64-apple-darwin"]
      else if platform =? "win32" then
        Some ["x86_64-pc-windows-msvc"]
      else None
    else None in
  let arm64 :=
    if arch =? "arm64" then
      if platform =? "linux" then
        Some ["aarch64-unknown-linux-musl"; "aarch64-unknown-linux-gnu"]
      else if platform =? "darwin" then
        Some ["aarch64-apple-darwin"]
      else None
    else None in
  match x64 with
  | Some ts => Ok ts
  | None =>
      match arm64 with
      | Some ts => Ok ts
      | None => Throw (UnsupportedPlatform arch platform)
      end
  end.

(** The supported (architecture, OS) pairs, as the README's table lists
    them. *)
Definition supported_pairs : list (string * string) :=
  [ ("x64", "linux"); ("x64", "darwin"); ("x64", "win32");
    ("arm64", "linux"); ("arm64", "darwin") ].

(** A target triple names the musl (statically linked) or the gnu
    (dynamically linked) runtime. *)
Definition is_musl (t : string) : bool := Js.endsWith t "-linux-musl".
Definition is_gnu (t : string) : bool := Js.endsWith t "-linux-gnu".

(* ------------------------------------------------------------------ *)
(** ** Data model (index.ts, lines 41-84, and the release listing) *)

(** [Tool] *)
Record Tool : Type := mkTool {
  owner : string;
  name : string;
  versionSpec : option string;
  bin : option string;
}.

(** [InstalledTool], as built by [{ version, dir, ...tool }]. *)
Record InstalledTool : Type := mkInstalled {
  version : string;
  dir : string;
  tool : Tool;
}.

(** [Release]: the candidate of the Release Locator. *)
Record Release : Type := mkRelease {
  rel_version : string;
  downloadUrl : string;
}.

(** An asset of a GitHub release, and a release of the listing. *)
Record Asset : Type := mkAsset {
  asset_name : string;
  browser_download_url : string;
}.

Record GhRelease : Type := mkGh {
  tag_name : string;
  assets : list Asset;
}.

(* ------------------------------------------------------------------ *)
(** ** The external packages *)

(** One constructor per call the program makes to a package outside the
    repository. *)
Inductive Event : Type :=
| EvFind (name spec : string)                  (* tc.find *)
| EvListReleases (owner repo : string) (page : nat)
                                               (* one page of GET /repos/{owner}/{repo}/releases *)
| EvDownload (url : string)                    (* tc.downloadTool *)
| EvExtractZip (file : string)                 (* tc.extractZip *)
| EvExtractTar (file : string)                 (* tc.extractTar *)
| EvCacheDir (src name version : string)       (* tc.cacheDir *)
| EvMkdir (path : string)                      (* fs.mkdir(path, { recursive: true }) *)
| EvRename (src dst : string)                  (* fs.rename *)
| EvReaddir (path : string)                    (* fs.readdir *)
| EvLstat (path : string)                      (* fs.lstat *)
| EvAccess (path : string)                     (* fs.access(path, X_OK) *)
| EvChmod (path mode : string)                 (* fs.chmod *)
| EvDebug (msg : string)                       (* core.debug *)
| EvInfo (msg : string)                        (* core.info *)
| EvAddPath (path : string)                    (* core.addPath *)
| EvSetFailed (msg : string).                  (* core.setFailed *)

(** Requests that go over the network. *)
Definition is_network (e : Event) : bool :=
  match e with
  | EvListReleases _ _ _ | EvDownload _ => true
  | _ => false
  end.

(** Calls that write to the file system. *)
Definition is_fs_mutation (e : Event) : bool :=
  match e with
  | EvDownload _ | EvExtractZip _ | EvExtractTar _ | EvCacheDir _ _ _
  | EvMkdir _ | EvRename _ _ | EvChmod _ _ => true
  | _ => false
  end.

Definition is_extraction (e : Event) : bool :=
  match e with
  | EvExtractZip _ | EvExtractTar _ => true
  | _ => false
  end.

Definition is_chmod (e : Event) : bool :=
  match e with EvChmod _ _ => true | _ => false end.

Definition is_permission_call (e : Event) : bool :=
  match e with EvAccess _ | EvChmod _ _ => true | _ => false end.

(** What the packages do, over a world [W] they read and write:
    the runtime's case mapping, [process], [semver], the release listing
    behind [@octokit/rest], [@actions/tool-cache], [fs.promises] and
    [path].  Queries read the
    world; commands return a new one. *)
Record Services (W : Type) : Type := mkServices {
  (* String.prototype.toLowerCase: the case mapping of the runtime,
     which follows Unicode *)
  js_toLowerCase : string -> string;
  proc_arch : string;
  proc_platform : string;
  semver_satisfies : string -> string -> bool;
  (* the pages of the listing, newest release first *)
  gh_releases : W -> string -> string -> list (list GhRelease);
  (* tool-cache *)
  tc_find : W -> string -> string -> result string;
  tc_downloadTool : string -> W -> result string * W;
  tc_extractZip : string -> W -> result string * W;
  tc_extractTar : string -> W -> result string * W;
  tc_cacheDir : string -> string -> string -> W -> result string * W;
  (* fs.promises *)
  fs_mkdir : string -> W -> result (option string) * W;
  fs_rename : string -> string -> W -> result unit * W;
  fs_readdir : W -> string -> result (list string);
  fs_lstat_isDirectory : W -> string -> result bool;
  fs_access_x : W -> string -> bool;
  fs_chmod : string -> string -> W -> result unit * W;
  (* path *)
  path_join : string -> string -> string;
  path_basename : string -> string;
  path_dirname : string -> string;
}.

(* ------------------------------------------------------------------ *)
(** ** The monad of the asynchronous code *)

Record St (W : Type) : Type := mkSt {
  world : W;
  log : list Event;
}.

Definition M (W A : Type) : Type := St W -> result A * St W.

Definition ret {W A} (a : A) : M W A := fun st => (Ok a, st).

Definition throw {W A} (e : exn) : M W A := fun st => (Throw e, st).

Definition bind {W A B} (m : M W A) (k : A -> M W B) : M W B :=
  fun st =>
    match m st with
    | (Ok a, st') => k a st'
    | (Throw e, st') => (Throw e, st')
    | (Exit e, st') => (Exit e, st')
    end.

(** [try { m } catch (err) { h err }]: the end of the process is not
    caught. *)
Definition try_catch {W A} (m : M W A) (h : exn -> M W A) : M W A :=
  fun st =>
    match m st with
    | (Ok a, st') => (Ok a, st')
    | (Throw e, st') => h e st'
    | (Exit e, st') => (Exit e, st')
    end.

(** A promise that is started and never awaited.  When it resolves,
    the caller goes on with its effect in place.  When it rejects,
    nobody handles the rejection and the process ends; the moment at
    which it ends depends on the scheduling of the pending calls, and
    the model says nothing of what runs between the rejected call and
    the end: the outcome is [Exit] in the state of the rejected call. *)
Definition unawaited {W A} (m : M W A) : M W unit :=
  fun st =>
    match m st with
    | (Ok _, st') => (Ok tt, st')
    | (Throw e, st') => (Exit e, st')
    | (Exit e, st') => (Exit e, st')
    end.

Definition emit {W} (e : Event) : M W unit :=
  fun st => (Ok tt, mkSt (world st) (log st ++ [e])).

(** A call that only reads the world. *)
Definition query {W A} (e : Event) (f : W -> result A) : M W A :=
  fun st => (f (world st), mkSt (world st) (log st ++ [e])).

(** A call that may change the world. *)
Definition command {W A} (e : Event) (f : W -> result A * W) : M W A :=
  fun st =>
    let (r, w) := f (world st) in (r, mkSt w (log st ++ [e])).

Definition lift {W A} (r : result A) : M W A := fun st => (r, st).

Declare Scope js_scope.
Delimit Scope js_scope with js.
Notation "x <- c ;; k" := (bind c (fun x => k))
  (at level 61, c at next level, right associativity) : js_scope.
Notation "c ;; k" := (bind c (fun _ => k))
  (at level 61, right associativity) : js_scope.
Open Scope js_scope.

(** The events a computation appends when started in [st]. *)
Definition events_of {W A} (m : M W A) (st : St W) : list Event :=
  skipn (length (log st)) (log (snd (m st))).

(** A run from a world with an empty log. *)
Definition run {W A} (m : M W A) (w : W) : result A * St W := m (mkSt w []).

(* ------------------------------------------------------------------ *)
(** ** The library: setup-crate/src/index.ts *)

Section Library.

Variable W : Type.
Variable E : Services W.

(** *** Calls to the packages *)

Definition core_debug (msg : string) : M W unit := emit (EvDebug msg).
Definition core_info (msg : string) : M W unit := emit (EvInfo msg).
Definition core_addPath (p : string) : M W unit := emit (EvAddPath p).
Definition core_setFailed (msg : string) : M W unit := emit (EvSetFailed msg).

Definition tc_find_ (name spec : string) : M W string :=
  query (EvFind name spec) (fun w => tc_find E w name spec).
Definition tc_downloadTool_ (url : string) : M W string :=
  command (EvDownload url) (tc_downloadTool E url).
Definition tc_extractZip_ (file : string) : M W string :=
  command (EvExtractZip file) (tc_extractZip E file).
Definition tc_extractTar_ (file : string) : M W string :=
  command (EvExtractTar file) (tc_extractTar E file).
Definition tc_cacheDir_ (src name version : string) : M W string :=
  command (EvCacheDir src name version) (tc_cacheDir E src name version).
Definition fs_mkdir_ (p : string) : M W (option string) :=
  command (EvMkdir p) (fs_mkdir E p).
Definition fs_rename_ (a b : string) : M W unit :=
  command (EvRename a b) (fs_rename E a b).
Definition fs_readdir_ (p : string) : M W (list string) :=
  query (EvReaddir p) (fun w => fs_readdir E w p).
Definition fs_lstat_isDirectory_ (p : string) : M W bool :=
  query (EvLstat p) (fun w => fs_lstat_isDirectory E w p).
(** [fs.access(p, X_OK)]: [true] when the promise resolves, [false]
    when it rejects. *)
Definition fs_access_x_ (p : string) : M W bool :=
  query (EvAccess p) (fun w => Ok (fs_access_x E w p)).
Definition fs_chmod_ (p mode : string) : M W unit :=
  command (EvChmod p mode) (fs_chmod E p mode).

(** [octokit.paginate(route, { owner, repo }, mapFn)]: the pages are
    requested one at a time; [mapFn] maps a page to results and tells
    whether it called [done()]; the results of the pages are
    concatenated, and no page is requested after [done()]. *)
Fixpoint paginate_from {A : Type} (owner repo : string)
    (mapFn : list GhRelease -> list A * bool)
    (pages : list (list GhRelease)) (n : nat) : M W (list A) :=
  match pages with
  | [] => ret []
  | page :: older =>
      emit (EvListReleases owner repo n) ;;
      let (results, done) := mapFn page in
      if done then ret results
      else rest <- paginate_from owner repo mapFn older (S n) ;;
           ret (results ++ rest)
  end.

Definition paginate {A : Type} (owner repo : string)
    (mapFn : list GhRelease -> list A * bool) : M W (list A) :=
  fun st =>
    paginate_from owner repo mapFn (gh_releases E (world st) owner repo) 1 st.

(** *** [getRelease] (lines 93-135) *)

(** [(ass) => targets.some((target) => ass.name.includes(target))] *)
Definition asset_matches (targets : list string) (ass : Asset) : bool :=
  existsb (fun target => Js.includes (asset_name ass) target) targets.

(** The [.map] callback of lines 103-113. *)
Definition to_release (targets : list string) (rel : GhRelease)
  : option Release :=
  match find (asset_matches targets) (assets rel) with
  | Some asset =>
      Some {| rel_version := Js.strip_v (tag_name rel);
              downloadUrl := browser_download_url asset |}
  | None => None
  end.

(** [Boolean(rel)] *)
Definition Boolean (rel : option Release) : bool :=
  match rel with Some _ => true | None => false end.

(** The second [.filter] callback, lines 115-119:
    [rel && versionSpec ? semver.satisfies(rel.version, versionSpec) : true] *)
Definition version_filter (versionSpec : option string)
    (rel : option Release) : bool :=
  match rel, versionSpec with
  | Some r, Some spec =>
      if Js.truthy spec then semver_satisfies E (rel_version r) spec
      else true
  | _, _ => true
  end.

(** The page callback of lines 101-124; the boolean tells whether
    [done()] was called. *)
Definition page_callback (targets : list string)
    (versionSpec : option string) (data : list GhRelease)
  : list (option Release) * bool :=
  let releases :=
    filter (version_filter versionSpec)
      (filter Boolean (map (to_release targets) data)) in
  (releases, (0 <? length releases)%nat).

Definition getRelease (tool : Tool) : M W Release :=
  targets <- lift (getTargets (proc_arch E) (proc_platform E)) ;;
  releases <- paginate (owner tool) (name tool)
                (page_callback targets (versionSpec tool)) ;;
  match find (fun release => Boolean release) releases with
  | Some (Some release) => ret release
  | _ => throw (NoMatchingRelease (name tool) (versionSpec tool))
  end.

(** *** [handleBadBinaryPermissions] (lines 137-160) *)

(** The loop of [findBin], lines 145-150. *)
Fixpoint findBin_loop (name : string) (files : list string) : string :=
  match files with
  | [] => name
  | file :: rest =>
      if js_toLowerCase E file =? js_toLowerCase E name then file
      else findBin_loop name rest
  end.

Definition findBin (name dir : string) : M W string :=
  files <- fs_readdir_ dir ;;
  ret (findBin_loop name files).

Definition handleBadBinaryPermissions (tool : Tool) (dir : string)
  : M W unit :=
  if negb (proc_platform E =? "win32") then
    file <- (if Js.otruthy (bin tool) then ret (Js.show (bin tool))
             else findBin (name tool) dir) ;;
    let binary := path_join E dir file in
    executable <- fs_access_x_ binary ;;
    if executable then ret tt
    else
      fs_chmod_ binary "755" ;;
      core_debug ("Fixed file permissions (-> 0o755) for " ++ binary)
  else ret tt.

(** *** [checkOrInstallTool] (lines 170-228) *)

Definition staging_dir : string := "/tmp/extractions-setup-crate-binaries".

(** Lines 187-207: the branch on the suffix of the download URL. *)
Definition extract (name version downloadUrl artifact : string)
  : M W string :=
  if Js.endsWith downloadUrl ".zip" then
    extractDir <- tc_extractZip_ artifact ;;
    core_debug ("Successfully extracted zip archive for " ++ name
                ++ " v" ++ version) ;;
    ret extractDir
  else if Js.endsWith downloadUrl ".tar.gz"
          || Js.endsWith downloadUrl ".tgz" then
    extractDir <- tc_extractTar_ artifact ;;
    core_debug ("Successfully extracted tar archive for " ++ name
                ++ " v" ++ version) ;;
    ret extractDir
  else
    core_debug ("Did not find archive to extract for " ++ name ++ " v"
                ++ version ++ ", treating downloaded tool as naked binary") ;;
    made <- fs_mkdir_ staging_dir ;;
    if Js.otruthy made then
      let extractDir := Js.show made in
      let newPath := path_join E extractDir name in
      unawaited (fs_rename_ artifact newPath) ;;
      core_debug ("Successfully moved binary from " ++ artifact ++ " to "
                  ++ newPath) ;;
      core_debug ("Successfully extracted binary for " ++ name ++ " v"
                  ++ version) ;;
      ret extractDir
    else throw StagingFailed.

(** Lines 209-216: descend into a single extracted directory. *)
Definition single_directory (extractDir : string) : M W string :=
  files <- fs_readdir_ extractDir ;;
  match files with
  | [file0] =>
      let maybeDir := path_join E extractDir file0 in
      isDir <- fs_lstat_isDirectory_ maybeDir ;;
      if isDir then ret maybeDir else ret extractDir
  | _ => ret extractDir
  end.

(** Lines 209-221: normalise, cache and repair permissions. *)
Definition cache_extracted (tool : Tool) (version extractDir : string)
  : M W string :=
  extractDir <- single_directory extractDir ;;
  dir <- tc_cacheDir_ extractDir (name tool) version ;;
  handleBadBinaryPermissions tool dir ;;
  ret dir.

(** Lines 179-222: the body of [if (!dir)]. *)
Definition install (tool : Tool) : M W string :=
  release <- getRelease tool ;;
  let version := rel_version release in
  let downloadUrl := downloadUrl release in
  artifact <- tc_downloadTool_ downloadUrl ;;
  core_debug ("Successfully downloaded " ++ name tool ++ " v" ++ version) ;;
  extractDir <- extract (name tool) version downloadUrl artifact ;;
  cache_extracted tool version extractDir.

Definition checkOrInstallTool (tool : Tool) : M W InstalledTool :=
  found <- tc_find_ (name tool) (Js.or_else (versionSpec tool) "*") ;;
  dir <- (if negb (Js.truthy found) then install tool else ret found) ;;
  let version := path_basename E (path_dirname E dir) in
  ret {| version := version; dir := dir; tool := tool |}.

End Library.

(* ------------------------------------------------------------------ *)
(** ** The action: src/index.ts *)

(** The values [core.getInput] returns; an input that is not set reads
    as the empty string. *)
Record Inputs : Type := mkInputs {
  in_repo : string;
  in_owner : string;
  in_name : string;
  in_github_token : string;
  in_version : string;
}.

Definition msg_repo_and_owner : string :=
  "When 'repo' is supplied, 'owner' and 'name' must not be provided".
Definition msg_owner_and_name : string :=
  "Both 'owner' and 'name' must be supplied when 'repo' is not provided".
Definition msg_two_versions : string :=
  "Both 'version' and 'repo' have a version specified, only one is allowed".

(** The error kind [ConflictingInput] of the specification: the two
    messages [main] fails with when exclusive inputs are combined. *)
Definition ConflictingInput (msg : string) : Prop :=
  msg = msg_repo_and_owner \/ msg = msg_two_versions.

Section Action.

Variable W : Type.
Variable E : Services W.

(** Lines 37-42.  [owner] and [name] come out of a destructuring and
    may be [undefined]; [checkOrInstallTool] then starts with
    [tc.find(undefined, ..)], which tool-cache rejects at once. *)
Definition setup (owner_ name_ : option string) (versionSpec : string)
  : M W unit :=
  match owner_, name_ with
  | Some o, Some n =>
      installed <- checkOrInstallTool E
                     {| owner := o; name := n;
                        versionSpec := Some versionSpec; bin := None |} ;;
      core_addPath (dir installed) ;;
      core_info ("Successfully setup " ++ name (tool installed)
                 ++ " v" ++ version installed)
  | _, _ => throw (Error "toolName parameter is required")
  end.

(** Lines 7-42: the body of the [try]. *)
Definition main_body (inputs : Inputs) : M W unit :=
  let repoSpec := in_repo inputs in
  let owner := in_owner inputs in
  let name := in_name inputs in
  let versionSpec := in_version inputs in
  if Js.truthy repoSpec then
    if Js.truthy owner || Js.truthy name then
      core_setFailed msg_repo_and_owner
    else
      let parts := Js.split "@" 2 repoSpec in
      let repo := Js.show (Js.at_index parts 0) in
      let version := Js.at_index parts 1 in
      if Js.otruthy version && Js.truthy versionSpec then
        core_setFailed msg_two_versions
      else
        let versionSpec := Js.or_else version versionSpec in
        let on := Js.split "/" 2 repo in
        setup (Js.at_index on 0) (Js.at_index on 1) versionSpec
  else
    if negb (Js.truthy owner) || negb (Js.truthy name) then
      core_setFailed msg_owner_and_name
    else
      setup (Some owner) (Some name) versionSpec.

Definition main (inputs : Inputs) : M W unit :=
  try_catch (main_body inputs)
            (fun err => core_setFailed (message err)).

End Action.

(* ------------------------------------------------------------------ *)
(** ** A small world to run the program in

    An in-memory file system, release listing and tool cache, with the
    packages implemented over it.  It is the concrete instance the
    examples below are evaluated in. *)

Module Sim.

Inductive node : Type := Dir | File (executable : bool).

Record World : Type := mkWorld {
  files : list (string * node);             (* absolute path, node *)
  listing : list (list GhRelease);          (* pages, newest first *)
  cached : list (string * string * string); (* name, version, directory *)
  archive : list (string * node);           (* what a downloaded archive unpacks to *)
}.

Definition lookup (p : string) (fs : list (string * node)) : option node :=
  match find (fun e => fst e =? p) fs with
  | Some e => Some (snd e)
  | None => None
  end.

Definition remove (p : string) (fs : list (string * node))
  : list (string * node) :=
  filter (fun e => negb (fst e =? p)) fs.

Fixpoint strip_prefix (p s : string) : option string :=
  match p, s with
  | EmptyString, _ => Some s
  | String c p', String d s' =>
      if Ascii.eqb c d then strip_prefix p' s' else None
  | String _ _, EmptyString => None
  end.

(** [Some n] when [p] is the entry [n] of the directory [d]. *)
Definition child_of (d p : string) : option string :=
  match strip_prefix (d ++ "/") p with
  | Some n => if Js.truthy n && negb (Js.includes n "/") then Some n else None
  | None => None
  end.

Definition entries (d : string) (fs : list (string * node)) : list string :=
  flat_map (fun e => match child_of d (fst e) with
                     | Some n => [n]
                     | None => []
                     end) fs.

Definition with_files (w : World) (fs : list (string * node)) : World :=
  mkWorld fs (listing w) (cached w) (archive w).

Definition ENOENT (p : string) : exn :=
  Error ("ENOENT: no such file or directory, " ++ p).

(** A stand-in for [semver.satisfies]: the wildcard, an exact version,
    or a prefix of the version's components ([0.10] accepts [0.10.3]). *)
Definition satisfies (v spec : string) : bool :=
  (spec =? "*") || (v =? spec) || Js.startsWith v (spec ++ ".").

Definition find_cached (w : World) (name spec : string) : result string :=
  if negb (Js.truthy name) then Throw (Error "toolName parameter is required")
  else
    match find (fun e => let '(n, v, _) := e in (n =? name) && satisfies v spec)
               (cached w) with
    | Some (_, _, d) => Ok d
    | None => Ok EmptyString
    end.

Definition download (url : string) (w : World) : result string * World :=
  (Ok "/tmp/download",
   with_files w (remove "/tmp/download" (files w)
                 ++ [("/tmp/download", File false)])).

Definition unpack (file : string) (w : World) : result string * World :=
  match lookup file (files w) with
  | Some (File _) =>
      (Ok "/tmp/extract",
       with_files w (files w ++ ("/tmp/extract", Dir)
                     :: map (fun e => (("/tmp/extract/" ++ fst e)%string, snd e))
                            (archive w)))
  | _ => (Throw (ENOENT file), w)
  end.

Definition cache_dir (src name version : string) (w : World)
  : result string * World :=
  let dest := ("/cache/" ++ name ++ "/" ++ version ++ "/x64")%string in
  let copied :=
    flat_map (fun e => match strip_prefix (src ++ "/") (fst e) with
                       | Some rest => [((dest ++ "/" ++ rest)%string, snd e)]
                       | None => []
                       end) (files w) in
  match lookup src (files w) with
  | Some Dir =>
      (Ok dest,
       mkWorld (files w ++ (dest, Dir) :: copied) (listing w)
               ((name, version, dest) :: cached w) (archive w))
  | _ => (Throw (ENOENT src), w)
  end.

(** [fs.mkdir(p, { recursive: true })] resolves with the first
    directory it had to create, and with [undefined] when [p] is a
    directory already. *)
Definition mkdir (p : string) (w : World) : result (option string) * World :=
  match lookup p (files w) with
  | Some Dir => (Ok None, w)
  | Some (File _) => (Throw (Error ("EEXIST: file already exists, " ++ p)), w)
  | None => (Ok (Some p), with_files w (files w ++ [(p, Dir)]))
  end.

Definition rename (a b : string) (w : World) : result unit * World :=
  match lookup a (files w) with
  | Some n => (Ok tt, with_files w (remove b (remove a (files w)) ++ [(b, n)]))
  | None => (Throw (ENOENT a), w)
  end.

Definition readdir (w : World) (d : string) : result (list string) :=
  match lookup d (files w) with
  | Some Dir => Ok (entries d (files w))
  | _ => Throw (ENOENT d)
  end.

Definition lstat_isDirectory (w : World) (p : string) : result bool :=
  match lookup p (files w) with
  | Some Dir => Ok true
  | Some (File _) => Ok false
  | None => Throw (ENOENT p)
  end.

Definition access_x (w : World) (p : string) : bool :=
  match lookup p (files w) with
  | Some Dir => true
  | Some (File x) => x
  | None => false
  end.

Definition chmod (p mode : string) (w : World) : result unit * World :=
  match lookup p (files w) with
  | Some (File _) =>
      (Ok tt,
       with_files w (map (fun e => if fst e =? p
                                   then (p, File (mode =? "755")) else e)
                         (files w)))
  | Some Dir => (Ok tt, w)
  | None => (Throw (ENOENT p), w)
  end.

Definition join (a b : string) : string := a ++ "/" ++ b.

Definition basename (p : string) : string :=
  last (Js.split_all "/" p) EmptyString.

Definition dirname (p : string) : string :=
  String.concat "/" (removelast (Js.split_all "/" p)).

(** A stand-in for [toLowerCase]: the case mapping of the ASCII
    letters. *)
Definition lower_ascii (c : ascii) : ascii :=
  let n := nat_of_ascii c in
  if ((65 <=? n) && (n <=? 90))%nat then ascii_of_nat (n + 32) else c.

Fixpoint lower (s : string) : string :=
  match s with
  | EmptyString => EmptyString
  | String c s' => String (lower_ascii c) (lower s')
  end.

Definition services (arch platform : string) : Services World :=
  {| js_toLowerCase := lower;
     proc_arch := arch;
     proc_platform := platform;
     semver_satisfies := satisfies;
     gh_releases := fun w _ _ => listing w;
     tc_find := find_cached;
     tc_downloadTool := download;
     tc_extractZip := unpack;
     tc_extractTar := unpack;
     tc_cacheDir := cache_dir;
     fs_mkdir := mkdir;
     fs_rename := rename;
     fs_readdir := readdir;
     fs_lstat_isDirectory := lstat_isDirectory;
     fs_access_x := access_x;
     fs_chmod := chmod;
     path_join := join;
     path_basename := basename;
     path_dirname := dirname |}.

Definition linux : Services World := services "x64" "linux".
Definition windows : Services World := services "x64" "win32".

(** *** Sample data *)

Definition musl_asset : Asset :=
  mkAsset "just-1.2.0-x86_64-unknown-linux-musl.tar.gz"
          "https://example.org/just-1.2.0-x86_64-unknown-linux-musl.tar.gz".
Definition gnu_asset : Asset :=
  mkAsset "just-1.2.0-x86_64-unknown-linux-gnu.tar.gz"
          "https://example.org/just-1.2.0-x86_64-unknown-linux-gnu.tar.gz".
Definition mac_asset : Asset :=
  mkAsset "just-1.2.0-x86_64-apple-darwin.tar.gz"
          "https://example.org/just-1.2.0-x86_64-apple-darwin.tar.gz".
Definition naked_asset (v : string) : Asset :=
  mkAsset ("just-" ++ v ++ "-x86_64-unknown-linux-musl")
          ("https://example.org/just-" ++ v ++ "-x86_64-unknown-linux-musl").

Definition linux_targets : list string :=
  ["x86_64-unknown-linux-musl"; "x86_64-unknown-linux-gnu"].

(** A release that lists the gnu build before the musl build. *)
Definition gnu_first : GhRelease := mkGh "v1.2.0" [mac_asset; gnu_asset; musl_asset].

Definition just : Tool := mkTool "casey" "just" None None.
Definition just_1_1 : Tool := mkTool "casey" "just" (Some "1.1") None.

(** Two pages: a release without a Linux build and a nightly on the
    first, two tagged releases on the second, an old one on the third. *)
Definition pages : list (list GhRelease) :=
  [ [ mkGh "v1.3.0" [mac_asset] ];
    [ mkGh "v1.2.0" [mac_asset; gnu_asset; musl_asset];
      mkGh "v1.1.4" [gnu_asset] ];
    [ mkGh "v1.1.0" [musl_asset] ] ].

Definition nightly_pages : list (list GhRelease) :=
  [ [ mkGh "nightly" [naked_asset "nightly"] ];
    [ mkGh "v1.2.0" [musl_asset] ] ].

Definition base_files : list (string * node) :=
  [ ("/tmp", Dir); ("/cache", Dir) ].

(** A fresh runner: nothing cached, an archive that wraps its content
    in one folder. *)
Definition fresh : World :=
  mkWorld base_files pages []
          [ ("just-1.2.0", Dir); ("just-1.2.0/just", File false);
            ("just-1.2.0/README.md", File false) ].

(** A runner whose cache holds just 1.2.0. *)
Definition warm : World :=
  mkWorld (base_files ++ [ ("/cache/just/1.2.0/x64", Dir);
                           ("/cache/just/1.2.0/x64/just", File true) ])
          pages [ ("just", "1.2.0", "/cache/just/1.2.0/x64") ] [].

(** A runner on which a release ships the bare executable. *)
Definition naked : World :=
  mkWorld base_files [ [ mkGh "v1.2.0" [naked_asset "1.2.0"] ] ] [] [].

(** The same, after an earlier step has created the staging directory. *)
Definition naked_again : World :=
  mkWorld (base_files ++ [ (staging_dir, Dir) ])
          [ [ mkGh "v1.2.0" [naked_asset "1.2.0"] ] ] [] [].

(** After the archive of [fresh] has been unpacked. *)
Definition unpacked : World :=
  mkWorld (base_files ++ [ ("/tmp/download", File false);
                           ("/tmp/extract", Dir);
                           ("/tmp/extract/just-1.2.0", Dir);
                           ("/tmp/extract/just-1.2.0/just", File false);
                           ("/tmp/extract/just-1.2.0/README.md", File false) ])
          pages [] [].

(** A cache directory whose binary lost its executable bit; the file
    is named [Just], the tool [just]. *)
Definition not_executable : World :=
  mkWorld (base_files ++ [ ("/cache/just/1.2.0/x64", Dir);
                           ("/cache/just/1.2.0/x64/README.md", File false);
                           ("/cache/just/1.2.0/x64/Just", File false) ])
          pages [ ("just", "1.2.0", "/cache/just/1.2.0/x64") ] [].

(** An unpacked archive whose single folder holds a single folder. *)
Definition nested : World :=
  mkWorld (base_files ++ [ ("/tmp/extract", Dir);
                           ("/tmp/extract/a", Dir);
                           ("/tmp/extract/a/b", Dir);
                           ("/tmp/extract/a/b/just", File true) ])
          pages [] [].

(** Another tool, released from the same listing. *)
Definition other : Tool := mkTool "casey" "other" None None.

(** A runner on which no release has a Linux build. *)
Definition barren : World :=
  mkWorld base_files [ [ mkGh "v1.3.0" [mac_asset] ]; [ mkGh "v1.0.0" [] ] ] [] [].

End Sim.

(* ------------------------------------------------------------------ *)
(** ** Notions of the specification *)

Module Spec.

(** Asset choice by target priority, following the specification's
    words: the most-preferred target that some asset of the release
    matches decides, and the asset is the first one matching it. *)
Definition preferred_target (targets : list string) (rel : GhRelease)
  : option string :=
  find (fun target =>
          existsb (fun ass => Js.includes (asset_name ass) target)
                  (assets rel))
       targets.

Definition asset_by_priority (targets : list string) (rel : GhRelease)
  : option Asset :=
  match preferred_target targets rel with
  | Some target =>
      find (fun ass => Js.includes (asset_name ass) target) (assets rel)
  | None => None
  end.

Definition to_release_by_priority (targets : list string) (rel : GhRelease)
  : option Release :=
  match asset_by_priority targets rel with
  | Some asset =>
      Some {| rel_version := Js.strip_v (tag_name rel);
              downloadUrl := browser_download_url asset |}
  | None => None
  end.

(** An asset matches an accepted target. *)
Definition matches_target (targets : list string) (ass : Asset) : Prop :=
  exists target, In target targets
                 /\ Js.includes (asset_name ass) target = true.

(** A release qualifies: it has an asset matching an accepted target,
    and, when a constraint is supplied, its stripped tag satisfies it. *)
Definition qualifies (satisfies : string -> string -> bool)
    (targets : list string) (versionSpec : option string)
    (rel : GhRelease) : Prop :=
  (exists ass, In ass (assets rel) /\ matches_target targets ass)
  /\ (Js.otruthy versionSpec = true ->
      satisfies (Js.strip_v (tag_name rel)) (Js.show versionSpec) = true).

(** The binary the permission repair looks at: the explicit [bin] if
    given, else the directory entry that equals the tool name up to
    case (under the case mapping [toLowerCase]), else the tool name. *)
Definition located_binary (toLowerCase : string -> string)
    (tool : Tool) (entries : list string) : string :=
  if Js.otruthy (bin tool) then Js.show (bin tool)
  else match find (fun f => toLowerCase f =? toLowerCase (name tool))
                  entries with
       | Some f => f
       | None => name tool
       end.

(** The combined spec carries a version: [owner/name@version], the
    version being the text between the first [@] and the next one. *)
Definition repo_has_version (repoSpec : string) : Prop :=
  exists (r : string) (c : ascii) (v : string),
    repoSpec = (r ++ "@" ++ String c v)%string
    /\ Js.includes r "@" = false
    /\ c <> "@"%char.

(** Mutually exclusive inputs are combined. *)
Definition conflicting (i : Inputs) : Prop :=
  (in_repo i <> EmptyString /\ (in_owner i <> EmptyString \/ in_name i <> EmptyString))
  \/ (repo_has_version (in_repo i) /\ in_version i <> EmptyString).

End Spec.

(** The [(source, name, version)] of the calls to [tc.cacheDir] in a log. *)
Definition cacheDir_calls (evs : list Event) : list (string * string * string) :=
  flat_map (fun e => match e with
                     | EvCacheDir src n v => [(src, n, v)]
                     | _ => []
                     end) evs.

(** The directories listed in a log. *)
Definition readdir_calls (evs : list Event) : list string :=
  flat_map (fun e => match e with EvReaddir p => [p] | _ => [] end) evs.

(** The candidates the page callback of [getRelease] keeps on one page. *)
Definition candidates {W : Type} (E : Services W) (targets : list string)
    (versionSpec : option string) (data : list GhRelease)
  : list (option Release) :=
  fst (page_callback E targets versionSpec data).

(** The page numbers [1 .. n] of the listing of a repository. *)
Definition page_requests (owner repo : string) (n : nat) : list Event :=
  map (EvListReleases owner repo) (seq 1 n).

(** The calls by which the action reports its outcome to the runner. *)
Definition is_report (e : Event) : bool :=
  match e with
  | EvSetFailed _ | EvAddPath _ | EvInfo _ => true
  | _ => false
  end.

(** A computation that appends to the log, and reports nothing. *)
Definition quiet {W A : Type} (m : M W A) : Prop :=
  forall st, exists evs,
    log (snd (m st)) = log st ++ evs
    /\ Forall (fun e => is_report e = false) evs.

Module Sim2.

(** A runner that cannot reach the download host. *)
Definition offline : Services Sim.World :=
  {| js_toLowerCase := Sim.lower;
     proc_arch := "x64";
     proc_platform := "linux";
     semver_satisfies := Sim.satisfies;
     gh_releases := fun w _ _ => Sim.listing w;
     tc_find := Sim.find_cached;
     tc_downloadTool :=
       fun url w => (Throw (Error ("connect ETIMEDOUT " ++ url)), w);
     tc_extractZip := Sim.unpack;
     tc_extractTar := Sim.unpack;
     tc_cacheDir := Sim.cache_dir;
     fs_mkdir := Sim.mkdir;
     fs_rename := Sim.rename;
     fs_readdir := Sim.readdir;
     fs_lstat_isDirectory := Sim.lstat_isDirectory;
     fs_access_x := Sim.access_x;
     fs_chmod := Sim.chmod;
     path_join := Sim.join;
     path_basename := Sim.basename;
     path_dirname := Sim.dirname |}.

(** A platform outside the table. *)
Definition arm_windows : Services Sim.World := Sim.services "arm64" "win32".

(** A runner that holds a downloaded artifact. *)
Definition downloaded : Sim.World :=
  Sim.mkWorld (Sim.base_files ++ [ ("/tmp/download", Sim.File false) ])
              Sim.pages []
              [ ("just", Sim.File false); ("LICENSE", Sim.File false) ].

End Sim2.

(** The calls of a cache miss that come before the extracted directory
    is looked at. *)
Definition is_before_cache (e : Event) : bool :=
  match e with
  | EvFind _ _ | EvListReleases _ _ _ | EvDownload _ | EvDebug _
  | EvExtractZip _ | EvExtractTar _ | EvMkdir _ | EvRename _ _ => true
  | _ => false
  end.

(** A computation that appends to the log, and only events of one
    kind. *)
Definition emits {W A : Type} (P : Event -> bool) (m : M W A) : Prop :=
  forall st, exists evs,
    log (snd (m st)) = log st ++ evs
    /\ Forall (fun e => P e = true) evs.

(** A run of [checkOrInstallTool] from [st] that misses the cache,
    locates the release [r], downloads its asset and unpacks or stages
    it: the extraction directory is [extractDir], and [st4] is the state
    in which the installer turns to it (line 209). *)
Definition extracted_on_miss {W : Type} (E : Services W) (tool : Tool)
    (st : St W) (r : Release) (extractDir : string) (st4 : St W) : Prop :=
  exists found st2 artifact w3,
    tc_find E (world st) (name tool) (Js.or_else (versionSpec tool) "*")
    = Ok found
    /\ Js.truthy found = false
    /\ getRelease E tool
         (mkSt (world st)
               (log st ++ [EvFind (name tool)
                                  (Js.or_else (versionSpec tool) "*")]))
       = (Ok r, st2)
    /\ tc_downloadTool E (downloadUrl r) (world st2) = (Ok artifact, w3)
    /\ extract E (name tool) (rel_version r) (downloadUrl r) artifact
         (mkSt w3
               (log st2 ++
                [EvDownload (downloadUrl r);
                 EvDebug ("Successfully downloaded " ++ name tool ++ " v"
                          ++ rel_version r)]))
       = (Ok extractDir, st4).

(** Such a run that goes on to store the directory in the cache:
    [tc.cacheDir] answers with [d], and [st6] is the state in which the
    installer turns to the permissions of the binary (line 221). *)
Definition cached_on_miss {W : Type} (E : Services W) (tool : Tool)
    (st : St W) (r : Release) (d : string) (st6 : St W) : Prop :=
  exists extractDir st4 src st5 w6,
    extracted_on_miss E tool st r extractDir st4
    /\ single_directory E extractDir st4 = (Ok src, st5)
    /\ tc_cacheDir E src (name tool) (rel_version r) (world st5)
       = (Ok d, w6)
    /\ st6 = mkSt w6 (log st5 ++ [EvCacheDir src (name tool) (rel_version r)]).

(** One outcome reported: a failure, or a path and a notice. *)
Definition one_outcome (evs : list Event) : Prop :=
  (exists msg, filter is_report evs = [EvSetFailed msg])
  \/ (exists d msg, filter is_report evs = [EvAddPath d; EvInfo msg]).

(** A run of the action that returns after reporting one outcome, or
    that ends with the process. *)
Definition reports_once {W : Type} (m : M W unit) (st : St W) : Prop :=
  (fst (m st) = Ok tt /\ one_outcome (events_of m st))
  \/ (exists e, fst (m st) = Exit e).

(** The states a cache miss goes through in the small world. *)
Module Stages.

Definition gnu_release : Release :=
  {| rel_version := "1.2.0";
     downloadUrl := browser_download_url Sim.gnu_asset |}.

Definition win_asset : Asset :=
  mkAsset "just-1.2.0-x86_64-pc-windows-msvc.zip"
          "https://example.org/just-1.2.0-x86_64-pc-windows-msvc.zip".

Definition win_release : Release :=
  {| rel_version := "1.2.0";
     downloadUrl := browser_download_url win_asset |}.

(** A fresh Windows runner; the archive holds the executable and a
    licence. *)
Definition win_fresh : Sim.World :=
  Sim.mkWorld Sim.base_files [ [ mkGh "v1.2.0" [win_asset] ] ] []
              [ ("just.exe", Sim.File false); ("LICENSE", Sim.File false) ].

Section Run.

Variable E : Services Sim.World.
Variable tool : Tool.
Variable r : Release.
Variable w : Sim.World.

(** After the cache was queried and the release located. *)
Definition located : St Sim.World :=
  snd (getRelease E tool
         (mkSt w [EvFind (name tool)
                         (Js.or_else (versionSpec tool) "*")])).

(** The world after the download. *)
Definition downloaded : Sim.World :=
  snd (tc_downloadTool E (downloadUrl r) (world located)).

(** After the extraction (line 209). *)
Definition extracted : St Sim.World :=
  snd (extract E (name tool) (rel_version r) (downloadUrl r)
         "/tmp/download"
         (mkSt downloaded
               (log located ++
                [EvDownload (downloadUrl r);
                 EvDebug ("Successfully downloaded " ++ name tool
                          ++ " v" ++ rel_version r)]))).

(** After the look at the extraction directory. *)
Definition normalized : St Sim.World :=
  snd (single_directory E "/tmp/extract" extracted).

(** After the directory [src] was stored in the cache (line 221). *)
Definition cached (src : string) : St Sim.World :=
  mkSt (snd (tc_cacheDir E src (name tool) (rel_version r)
               (world normalized)))
       (log normalized ++ [EvCacheDir src (name tool) (rel_version r)]).

End Run.

End Stages.

(* ------------------------------------------------------------------ *)
(** ** Proof automation *)

(** Decide, on closed data, that no asset of a release matches. *)
Ltac no_asset_matches H :=
  let ass := fresh "ass" in
  let Hin := fresh "Hin" in
  let t := fresh "t" in
  let Ht := fresh "Ht" in
  let Hinc := fresh "Hinc" in
  destruct H as [ass [Hin [t [Ht Hinc]]]];
  simpl in Hin, Ht;
  repeat (destruct Hin as [Hin | Hin]; [subst ass |]); try contradiction;
  repeat (destruct Ht as [Ht | Ht]; [subst t |]); try contradiction;
  vm_compute in Hinc; discriminate Hinc.

(** Run the monad's combinators and the calls to the packages, leaving
    strings and the packages' own results alone. *)
Ltac run_m :=
  cbv beta iota delta
    [bind emit command query ret throw lift unawaited try_catch
     core_debug core_info core_addPath core_setFailed
     tc_find_ tc_downloadTool_ tc_extractZip_ tc_extractTar_ tc_cacheDir_
     fs_mkdir_ fs_rename_ fs_readdir_ fs_lstat_isDirectory_ fs_access_x_
     fs_chmod_ world log fst snd].

(** Put a log in the shape [l ++ evs]. *)
Ltac log_shape :=
  repeat rewrite <- app_assoc; cbn [app]; try reflexivity.

(** Close an equation between two outcomes that differ in the
    bracketing of the log only. *)
Ltac state_eq :=
  solve [ reflexivity | f_equal; f_equal; log_shape ].

(* ================================================================== *)
(** * Properties *)

Unset Implicit Arguments.

(* ------------------------------------------------------------------ *)
(** ** Target Resolver *)

Example getTargets_x64_linux :
  getTargets "x64" "linux"
  = Ok ["x86_64-unknown-linux-musl"; "x86_64-unknown-linux-gnu"].
Proof. reflexivity. Qed.

Example getTargets_arm64_win32 :
  getTargets "arm64" "win32" = Throw (UnsupportedPlatform "arm64" "win32").
Proof. reflexivity. Qed.

Lemma getTargets_supported (arch platform : string) :
  In (arch, platform) supported_pairs ->
  exists t ts, getTargets arch platform = Ok (t :: ts)
    /\ (platform = "linux" ->
        exists musl gnu, t :: ts = [musl; gnu]
                         /\ is_musl musl = true /\ is_gnu gnu = true).
Proof.
  unfold supported_pairs.
  intros Hin.
  repeat (destruct Hin as [Heq | Hin];
          [ inversion Heq; subst; clear Heq;
            eexists; eexists; split;
            [ reflexivity
            | intros Hl; try discriminate Hl;
              eexists; eexists; repeat split; reflexivity ]
          | ]).
  destruct Hin.
Qed.

Lemma getTargets_unsupported (arch platform : string) :
  ~ In (arch, platform) supported_pairs ->
  getTargets arch platform = Throw (UnsupportedPlatform arch platform).
Proof.
  intros Hout. unfold getTargets.
  destruct (arch =? "x64") eqn:Ha.
  - apply String.eqb_eq in Ha. subst arch.
    destruct (platform =? "linux") eqn:Hl;
      [apply String.eqb_eq in Hl; subst; exfalso; apply Hout; simpl; tauto |].
    destruct (platform =? "darwin") eqn:Hd;
      [apply String.eqb_eq in Hd; subst; exfalso; apply Hout; simpl; tauto |].
    destruct (platform =? "win32") eqn:Hw;
      [apply String.eqb_eq in Hw; subst; exfalso; apply Hout; simpl; tauto |].
    reflexivity.
  - destruct (arch =? "arm64") eqn:Hb; [| reflexivity].
    apply String.eqb_eq in Hb. subst arch.
    destruct (platform =? "linux") eqn:Hl;
      [apply String.eqb_eq in Hl; subst; exfalso; apply Hout; simpl; tauto |].
    destruct (platform =? "darwin") eqn:Hd;
      [apply String.eqb_eq in Hd; subst; exfalso; apply Hout; simpl; tauto |].
    reflexivity.
Qed.

(** C5. For every (architecture, OS) pair of the supported table
    [getTargets] returns a non-empty list, the same at every call (it is
    a function of the pair); on Linux the list has exactly two targets,
    the musl (statically linked) one before the gnu (dynamically linked)
    one; for every pair outside the table it throws the
    unsupported-platform error, whose message carries the architecture
    and the OS. *)
Theorem getTargets_table (arch platform : string) :
  (In (arch, platform) supported_pairs ->
   exists t ts, getTargets arch platform = Ok (t :: ts)
     /\ (platform = "linux" ->
         exists musl gnu, t :: ts = [musl; gnu]
                          /\ is_musl musl = true /\ is_gnu gnu = true))
  /\ (~ In (arch, platform) supported_pairs ->
      getTargets arch platform
      = Throw (Error ("failed to determine any valid targets; arch = "
                      ++ arch ++ ", platform = " ++ platform))).
Proof.
  split.
  - apply getTargets_supported.
  - apply getTargets_unsupported.
Qed.

Lemma getTargets_table_witness :
  (exists t ts, getTargets "arm64" "linux" = Ok (t :: ts)
     /\ ("linux" = "linux" ->
         exists musl gnu, t :: ts = [musl; gnu]
                          /\ is_musl musl = true /\ is_gnu gnu = true))
  /\ getTargets "arm64" "win32"
     = Throw (Error "failed to determine any valid targets; arch = arm64, platform = win32").
Proof.
  split.
  - apply (proj1 (getTargets_table "arm64" "linux")). simpl. tauto.
  - apply (proj2 (getTargets_table "arm64" "win32")). simpl.
    intros H.
    repeat (destruct H as [H | H]; [discriminate H |]).
    exact H.
Defined.

(* ------------------------------------------------------------------ *)
(** ** Release Locator: the choice of the asset *)

Lemma find_first {A : Type} (f : A -> bool) (pre : list A) (a : A)
    (post : list A) :
  (forall b, In b pre -> f b = false) ->
  f a = true ->
  find f (pre ++ a :: post) = Some a.
Proof.
  induction pre as [| b pre IH]; simpl; intros Hpre Ha.
  - now rewrite Ha.
  - rewrite (Hpre b (or_introl eq_refl)). apply IH; auto.
Qed.

Lemma asset_matches_true (targets : list string) (ass : Asset) :
  asset_matches targets ass = true <-> Spec.matches_target targets ass.
Proof.
  unfold asset_matches, Spec.matches_target. apply existsb_exists.
Qed.

Lemma asset_matches_false (targets : list string) (ass : Asset) :
  ~ Spec.matches_target targets ass -> asset_matches targets ass = false.
Proof.
  intros H. destruct (asset_matches targets ass) eqn:E; [| reflexivity].
  exfalso. apply H. now apply asset_matches_true.
Qed.

Lemma to_release_some (targets : list string) (rel : GhRelease) :
  (exists ass, In ass (assets rel) /\ Spec.matches_target targets ass) ->
  exists asset,
    find (asset_matches targets) (assets rel) = Some asset
    /\ to_release targets rel
       = Some {| rel_version := Js.strip_v (tag_name rel);
                 downloadUrl := browser_download_url asset |}.
Proof.
  intros [ass [Hin Hm]]. unfold to_release.
  destruct (find (asset_matches targets) (assets rel)) as [asset |] eqn:Hf.
  - exists asset. split; reflexivity.
  - exfalso. apply asset_matches_true in Hm.
    pose proof (find_none _ _ Hf ass Hin) as Hn. congruence.
Qed.

Lemma to_release_inv (targets : list string) (rel : GhRelease) (c : Release) :
  to_release targets rel = Some c ->
  rel_version c = Js.strip_v (tag_name rel)
  /\ exists ass, In ass (assets rel) /\ Spec.matches_target targets ass.
Proof.
  unfold to_release.
  destruct (find (asset_matches targets) (assets rel)) as [asset |] eqn:Hf;
    [| discriminate].
  intros H. inversion H; subst; clear H. split; [reflexivity |].
  apply find_some in Hf. destruct Hf as [Hin Hm].
  exists asset. split; [assumption |]. now apply asset_matches_true.
Qed.

(** C1, as the code has it. The asset of a release is the first one, in
    the order the release lists its assets, whose name contains any of
    the accepted targets; the order of the targets plays no part. *)
Theorem first_matching_asset_wins (targets : list string) (rel : GhRelease)
    (pre : list Asset) (ass : Asset) (post : list Asset) :
  assets rel = pre ++ ass :: post ->
  (forall b, In b pre -> ~ Spec.matches_target targets b) ->
  Spec.matches_target targets ass ->
  to_release targets rel
  = Some {| rel_version := Js.strip_v (tag_name rel);
            downloadUrl := browser_download_url ass |}.
Proof.
  intros Hassets Hpre Hass. unfold to_release. rewrite Hassets.
  rewrite find_first.
  - reflexivity.
  - intros b Hb. apply asset_matches_false. now apply Hpre.
  - now apply asset_matches_true.
Qed.

Lemma first_matching_asset_wins_witness :
  to_release Sim.linux_targets Sim.gnu_first
  = Some {| rel_version := "1.2.0";
            downloadUrl := browser_download_url Sim.gnu_asset |}.
Proof.
  apply (first_matching_asset_wins Sim.linux_targets Sim.gnu_first
           [Sim.mac_asset] Sim.gnu_asset [Sim.musl_asset]).
  - reflexivity.
  - intros b [Hb | []] [t [Ht Hinc]]. subst b.
    simpl in Ht. destruct Ht as [Ht | [Ht | []]]; subst t;
      vm_compute in Hinc; discriminate Hinc.
  - exists "x86_64-unknown-linux-gnu". split.
    + simpl. tauto.
    + vm_compute. reflexivity.
Defined.

(** The release [Sim.gnu_first] has a musl and a gnu build, the gnu
    build listed first.  By target priority the musl build is the
    choice; the code takes the gnu build. *)
Lemma asset_priority_counterexample :
  Spec.asset_by_priority Sim.linux_targets Sim.gnu_first = Some Sim.musl_asset
  /\ find (asset_matches Sim.linux_targets) (assets Sim.gnu_first)
     = Some Sim.gnu_asset
  /\ to_release Sim.linux_targets Sim.gnu_first
     <> Spec.to_release_by_priority Sim.linux_targets Sim.gnu_first.
Proof.
  split; [vm_compute; reflexivity |].
  split; [vm_compute; reflexivity |].
  vm_compute. intros H. discriminate H.
Qed.

(* ------------------------------------------------------------------ *)
(** ** Release Locator: the walk over the pages *)

Section Locator.

Variable W : Type.
Variable E : Services W.

Lemma version_filter_qualifies targets versionSpec rel c :
  to_release targets rel = Some c ->
  (version_filter E versionSpec (Some c) = true
   <-> Spec.qualifies (semver_satisfies E) targets versionSpec rel).
Proof.
  intros Hc. destruct (to_release_inv _ _ _ Hc) as [Hv Hass].
  unfold Spec.qualifies, version_filter. rewrite Hv.
  destruct versionSpec as [spec |]; simpl.
  - destruct (Js.truthy spec); intuition congruence.
  - intuition congruence.
Qed.

Lemma candidates_cons targets versionSpec rel data :
  candidates E targets versionSpec (rel :: data)
  = match to_release targets rel with
    | Some c => if version_filter E versionSpec (Some c)
                then Some c :: candidates E targets versionSpec data
                else candidates E targets versionSpec data
    | None => candidates E targets versionSpec data
    end.
Proof.
  unfold candidates. simpl.
  destruct (to_release targets rel) as [c |]; simpl; reflexivity.
Qed.

Lemma candidates_none targets versionSpec data :
  (forall r, In r data ->
             ~ Spec.qualifies (semver_satisfies E) targets versionSpec r) ->
  candidates E targets versionSpec data = [].
Proof.
  induction data as [| rel data IH]; intros Hnone; [reflexivity |].
  rewrite candidates_cons.
  assert (Hrest : candidates E targets versionSpec data = [])
    by (apply IH; intros r Hr; apply Hnone; now right).
  destruct (to_release targets rel) as [c |] eqn:Hc; [| exact Hrest].
  destruct (version_filter E versionSpec (Some c)) eqn:Hf; [| exact Hrest].
  exfalso. apply (Hnone rel (or_introl eq_refl)).
  now apply (version_filter_qualifies _ _ _ _ Hc).
Qed.

Lemma candidates_first targets versionSpec rs1 rel rs2 :
  (forall r, In r rs1 ->
             ~ Spec.qualifies (semver_satisfies E) targets versionSpec r) ->
  Spec.qualifies (semver_satisfies E) targets versionSpec rel ->
  exists asset,
    find (asset_matches targets) (assets rel) = Some asset
    /\ candidates E targets versionSpec (rs1 ++ rel :: rs2)
       = Some {| rel_version := Js.strip_v (tag_name rel);
                 downloadUrl := browser_download_url asset |}
         :: candidates E targets versionSpec rs2.
Proof.
  intros Hnone Hq.
  destruct (to_release_some targets rel (proj1 Hq)) as [asset [Hfind Hc]].
  exists asset. split; [exact Hfind |].
  induction rs1 as [| r rs1 IH].
  - simpl app. rewrite candidates_cons, Hc.
    apply (version_filter_qualifies _ _ _ _ Hc) in Hq. now rewrite Hq.
  - simpl app. rewrite candidates_cons.
    assert (IH' := IH (fun x Hx => Hnone x (or_intror Hx))).
    destruct (to_release targets r) as [c |] eqn:Hr; [| exact IH'].
    destruct (version_filter E versionSpec (Some c)) eqn:Hf; [| exact IH'].
    exfalso. apply (Hnone r (or_introl eq_refl)).
    now apply (version_filter_qualifies _ _ _ _ Hr).
Qed.

Lemma callback_none targets versionSpec data :
  (forall r, In r data ->
             ~ Spec.qualifies (semver_satisfies E) targets versionSpec r) ->
  page_callback E targets versionSpec data = ([], false).
Proof.
  intros H. pose proof (candidates_none _ _ _ H) as Hc.
  unfold candidates, page_callback in *. simpl in Hc. rewrite Hc. reflexivity.
Qed.

Lemma callback_done targets versionSpec data c rest :
  candidates E targets versionSpec data = c :: rest ->
  page_callback E targets versionSpec data = (c :: rest, true).
Proof.
  unfold candidates, page_callback. simpl. intros ->. reflexivity.
Qed.

Lemma bind_ret_app_nil {A : Type} (m : M W (list A)) (st : St W) :
  (rest <- m ;; ret ([] ++ rest)) st = m st.
Proof.
  unfold bind, ret. destruct (m st) as [[a | e | e] st']; reflexivity.
Qed.

Lemma paginate_from_cons {A : Type} owner repo
    (mapFn : list GhRelease -> list A * bool) page older n :
  paginate_from (W:=W) owner repo mapFn (page :: older) n
  = (emit (EvListReleases owner repo n) ;;
     let (results, done) := mapFn page in
     if done then ret results
     else rest <- paginate_from owner repo mapFn older (S n) ;;
          ret (results ++ rest)).
Proof. reflexivity. Qed.

(** Pages without a qualifying release are requested and passed over. *)
Lemma paginate_skip targets versionSpec owner repo newer rest n (st : St W) :
  (forall r, In r (concat newer) ->
             ~ Spec.qualifies (semver_satisfies E) targets versionSpec r) ->
  paginate_from owner repo (page_callback E targets versionSpec)
                (newer ++ rest) n st
  = paginate_from owner repo (page_callback E targets versionSpec) rest
      (n + length newer)
      (mkSt (world st)
            (log st ++ map (EvListReleases owner repo)
                           (seq n (length newer)))).
Proof.
  revert n st. induction newer as [| page newer IH]; intros n st Hnone.
  - simpl. rewrite Nat.add_0_r, app_nil_r. destruct st; reflexivity.
  - simpl app. rewrite paginate_from_cons.
    rewrite callback_none
      by (intros r Hr; apply Hnone; simpl; apply in_or_app; now left).
    unfold bind at 1. unfold emit at 1.
    rewrite bind_ret_app_nil.
    rewrite IH
      by (intros r Hr; apply Hnone; simpl; apply in_or_app; now right).
    simpl. rewrite <- app_assoc. simpl.
    replace (S (n + length newer)) with (n + S (length newer)) by lia.
    reflexivity.
Qed.

Lemma paginate_exhausted targets versionSpec owner repo pages n (st : St W) :
  (forall r, In r (concat pages) ->
             ~ Spec.qualifies (semver_satisfies E) targets versionSpec r) ->
  paginate_from owner repo (page_callback E targets versionSpec) pages n st
  = (Ok [],
     mkSt (world st)
          (log st ++ map (EvListReleases owner repo)
                         (seq n (length pages)))).
Proof.
  intros Hnone.
  rewrite <- (app_nil_r pages) at 1.
  rewrite paginate_skip by assumption. reflexivity.
Qed.

(** C2. The releases being listed newest first, [getRelease] returns
    the candidate built from the first release of the listing that
    qualifies (an asset matches an accepted target, and the stripped
    tag satisfies the constraint when there is one).  The pages
    requested are exactly those up to the page of that release: no
    older page is requested, whatever it holds. *)
Theorem getRelease_newest_first (tool : Tool) (st : St W)
    (targets : list string) (newer : list (list GhRelease))
    (rs1 : list GhRelease) (rel : GhRelease) (rs2 : list GhRelease)
    (older : list (list GhRelease)) :
  getTargets (proc_arch E) (proc_platform E) = Ok targets ->
  gh_releases E (world st) (owner tool) (name tool)
  = newer ++ (rs1 ++ rel :: rs2) :: older ->
  (forall r, In r (concat newer ++ rs1) ->
             ~ Spec.qualifies (semver_satisfies E) targets
                 (versionSpec tool) r) ->
  Spec.qualifies (semver_satisfies E) targets (versionSpec tool) rel ->
  exists asset,
    find (asset_matches targets) (assets rel) = Some asset
    /\ getRelease E tool st
       = (Ok {| rel_version := Js.strip_v (tag_name rel);
                downloadUrl := browser_download_url asset |},
          mkSt (world st)
               (log st ++ page_requests (owner tool) (name tool)
                                        (length newer + 1))).
Proof.
  intros Htargets Hpages Hnone Hq.
  destruct (candidates_first targets (versionSpec tool) rs1 rel rs2)
    as [asset [Hfind Hcand]]; [| exact Hq |].
  { intros r Hr. apply Hnone. apply in_or_app. now right. }
  exists asset. split; [exact Hfind |].
  unfold getRelease, paginate. rewrite Htargets.
  unfold bind at 1, lift at 1. unfold bind at 1.
  rewrite Hpages.
  rewrite paginate_skip
    by (intros r Hr; apply Hnone; apply in_or_app; now left).
  rewrite paginate_from_cons.
  rewrite (callback_done _ _ _ _ _ Hcand).
  unfold bind at 1, emit at 1. unfold ret at 1. simpl.
  unfold ret, page_requests. f_equal. f_equal.
  rewrite <- app_assoc. f_equal.
  rewrite seq_app, map_app. simpl. reflexivity.
Qed.

(** C8. When the listing has been walked to its last page and no
    release qualifies, [getRelease] throws an error whose message
    names the tool and the version constraint. *)
Theorem getRelease_no_match (tool : Tool) (st : St W)
    (targets : list string) :
  getTargets (proc_arch E) (proc_platform E) = Ok targets ->
  (forall r,
      In r (concat (gh_releases E (world st) (owner tool) (name tool))) ->
      ~ Spec.qualifies (semver_satisfies E) targets (versionSpec tool) r) ->
  getRelease E tool st
  = (Throw (Error ("no release for " ++ name tool
                   ++ " matching version specifier "
                   ++ Js.show (versionSpec tool))),
     mkSt (world st)
          (log st ++ page_requests (owner tool) (name tool)
                       (length (gh_releases E (world st) (owner tool)
                                            (name tool))))).
Proof.
  intros Htargets Hnone.
  unfold getRelease, paginate. rewrite Htargets.
  unfold bind at 1, lift at 1. unfold bind at 1.
  rewrite paginate_exhausted by assumption.
  reflexivity.
Qed.

(** C10. Without a version constraint ([undefined] or the empty
    string) the callback keeps every release that has an asset
    matching an accepted target, whatever its tag and whatever the
    semantic-version matcher would say about it. *)
Theorem no_constraint_no_semver (targets : list string)
    (versionSpec : option string) (data : list GhRelease) :
  Js.otruthy versionSpec = false ->
  fst (page_callback E targets versionSpec data)
  = filter Boolean (map (to_release targets) data)
  /\ forall rel,
      In rel data ->
      (exists ass, In ass (assets rel) /\ Spec.matches_target targets ass) ->
      Spec.qualifies (semver_satisfies E) targets versionSpec rel
      /\ In (to_release targets rel)
            (fst (page_callback E targets versionSpec data)).
Proof.
  intros Hfalsy.
  assert (Hall : forall l : list (option Release),
             filter (version_filter E versionSpec) l = l).
  { induction l as [| r l IH]; [reflexivity |]. simpl.
    assert (Hr : version_filter E versionSpec r = true).
    { unfold version_filter. destruct r as [c |]; [| reflexivity].
      destruct versionSpec as [spec |]; [| reflexivity].
      simpl in Hfalsy. now rewrite Hfalsy. }
    now rewrite Hr, IH. }
  split.
  - simpl. apply Hall.
  - intros rel Hin Hass. split.
    + split; [exact Hass |]. rewrite Hfalsy. discriminate.
    + simpl. rewrite Hall.
      destruct (to_release_some targets rel Hass) as [asset [_ Hc]].
      apply filter_In. split.
      * apply in_map. exact Hin.
      * rewrite Hc. reflexivity.
Qed.

End Locator.

(** With the constraint [1.1], on the listing [Sim.pages]: v1.3.0 has no
    Linux build, v1.2.0 does not satisfy the constraint, v1.1.4 on the
    second page is returned, and the third page, whose v1.1.0 satisfies
    the constraint too, is never requested. *)
Lemma getRelease_newest_first_witness :
  exists asset,
    find (asset_matches Sim.linux_targets)
         (assets (mkGh "v1.1.4" [Sim.gnu_asset])) = Some asset
    /\ getRelease Sim.linux Sim.just_1_1 (mkSt Sim.fresh [])
       = (Ok {| rel_version := "1.1.4";
                downloadUrl := browser_download_url asset |},
          mkSt Sim.fresh [EvListReleases "casey" "just" 1;
                          EvListReleases "casey" "just" 2]).
Proof.
  apply (getRelease_newest_first Sim.World Sim.linux Sim.just_1_1
           (mkSt Sim.fresh []) Sim.linux_targets
           [ [ mkGh "v1.3.0" [Sim.mac_asset] ] ]
           [ mkGh "v1.2.0" [Sim.mac_asset; Sim.gnu_asset; Sim.musl_asset] ]
           (mkGh "v1.1.4" [Sim.gnu_asset]) []
           [ [ mkGh "v1.1.0" [Sim.musl_asset] ] ]).
  - reflexivity.
  - reflexivity.
  - intros r Hr [Hass Hver]. simpl in Hr.
    destruct Hr as [Hr | [Hr | []]]; subst r.
    + no_asset_matches Hass.
    + specialize (Hver eq_refl). vm_compute in Hver. discriminate Hver.
  - split.
    + exists Sim.gnu_asset. split; [simpl; tauto |].
      exists "x86_64-unknown-linux-gnu". split; [simpl; tauto |].
      vm_compute. reflexivity.
    + intros _. vm_compute. reflexivity.
Defined.

Lemma getRelease_no_match_witness :
  getRelease Sim.linux Sim.just (mkSt Sim.barren [])
  = (Throw (Error "no release for just matching version specifier undefined"),
     mkSt Sim.barren [EvListReleases "casey" "just" 1;
                      EvListReleases "casey" "just" 2]).
Proof.
  apply (getRelease_no_match Sim.World Sim.linux Sim.just
           (mkSt Sim.barren []) Sim.linux_targets).
  - reflexivity.
  - intros r Hr [Hass _]. simpl in Hr.
    destruct Hr as [Hr | [Hr | []]]; subst r; no_asset_matches Hass.
Defined.

(** A release tagged [nightly] is kept when there is no constraint. *)
Lemma no_constraint_no_semver_witness :
  Spec.qualifies Sim.satisfies Sim.linux_targets None
                 (mkGh "nightly" [Sim.naked_asset "nightly"])
  /\ In (Some {| rel_version := "nightly";
                 downloadUrl := browser_download_url (Sim.naked_asset "nightly") |})
        (fst (page_callback Sim.linux Sim.linux_targets None
                [mkGh "nightly" [Sim.naked_asset "nightly"]])).
Proof.
  apply (proj2 (no_constraint_no_semver Sim.World Sim.linux Sim.linux_targets
                  None [mkGh "nightly" [Sim.naked_asset "nightly"]] eq_refl)).
  - simpl. tauto.
  - exists (Sim.naked_asset "nightly"). split; [simpl; tauto |].
    exists "x86_64-unknown-linux-musl". split; [simpl; tauto |].
    vm_compute. reflexivity.
Defined.

(* ------------------------------------------------------------------ *)
(** ** Installer *)

Lemma skipn_app_length {A : Type} (l l' : list A) :
  skipn (length l) (l ++ l') = l'.
Proof. induction l as [| a l IH]; simpl; auto. Qed.

Lemma events_of_appended {W A : Type} (m : M W A) (st : St W)
    (evs : list Event) :
  log (snd (m st)) = log st ++ evs -> events_of m st = evs.
Proof. unfold events_of. intros ->. apply skipn_app_length. Qed.

Lemma findBin_loop_find {W : Type} (E : Services W) (name : string)
    (files : list string) :
  findBin_loop E name files
  = match find (fun f => js_toLowerCase E f =? js_toLowerCase E name)
               files with
    | Some f => f
    | None => name
    end.
Proof.
  induction files as [| f files IH]; simpl; [reflexivity |].
  destruct (js_toLowerCase E f =? js_toLowerCase E name); auto.
Qed.

Section Installer.

Variable W : Type.
Variable E : Services W.

(** *** Cache hit *)

Lemma checkOrInstallTool_hit (tool : Tool) (st : St W) (d : string) :
  tc_find E (world st) (name tool) (Js.or_else (versionSpec tool) "*")
  = Ok d ->
  Js.truthy d = true ->
  checkOrInstallTool E tool st
  = (Ok {| version := path_basename E (path_dirname E d);
           dir := d; tool := tool |},
     mkSt (world st)
          (log st ++ [EvFind (name tool)
                             (Js.or_else (versionSpec tool) "*")])).
Proof.
  intros Hfind Htruthy.
  destruct st as [w0 l0]. cbn [world log] in *.
  unfold checkOrInstallTool. run_m.
  rewrite Hfind, Htruthy. reflexivity.
Qed.

(** Hit or miss, the result is built from the directory alone. *)
Lemma checkOrInstallTool_result (tool : Tool) (st st1 : St W)
    (i1 : InstalledTool) :
  checkOrInstallTool E tool st = (Ok i1, st1) ->
  i1 = {| version := path_basename E (path_dirname E (dir i1));
          dir := dir i1; tool := tool |}.
Proof.
  unfold checkOrInstallTool. unfold bind at 1.
  destruct (tc_find_ E (name tool) (Js.or_else (versionSpec tool) "*") st)
    as [[found | e | e] st0]; try discriminate.
  unfold bind at 1.
  destruct ((if negb (Js.truthy found) then install E tool else ret found)
              st0) as [[d | e | e] st2]; try discriminate.
  unfold ret. intros H. inversion H; subst. reflexivity.
Qed.

(** C3. The cache being warm when the second invocation starts (the
    lookup for the tool's name and constraint hits), the second
    invocation only queries the cache: it makes no network request,
    no download, no extraction and no change to the file system, and
    leaves the world as it found it.  Its result is built from the
    cached directory; it is the first invocation's result whenever
    the first invocation was served from the cache itself, and, after
    a first invocation that installed the tool, whenever the cache
    returns the directory that invocation reported. *)
Theorem warm_cache_idempotent (tool : Tool) (st : St W) (d : string) :
  let spec := Js.or_else (versionSpec tool) "*" in
  let first := checkOrInstallTool E tool st in
  let second := checkOrInstallTool E tool (snd first) in
  tc_find E (world (snd first)) (name tool) spec = Ok d ->
  Js.truthy d = true ->
  fst second = Ok {| version := path_basename E (path_dirname E d);
                     dir := d; tool := tool |}
  /\ world (snd second) = world (snd first)
  /\ events_of (checkOrInstallTool E tool) (snd first)
     = [EvFind (name tool) spec]
  /\ Forall (fun e => is_network e = false
                      /\ is_extraction e = false
                      /\ is_fs_mutation e = false)
            (events_of (checkOrInstallTool E tool) (snd first))
  /\ (forall d0, tc_find E (world st) (name tool) spec = Ok d0 ->
                 Js.truthy d0 = true ->
                 fst second = fst first)
  /\ (forall i1, fst first = Ok i1 -> dir i1 = d ->
                 fst second = fst first).
Proof.
  intros spec first second Hfind Htruthy.
  pose proof (checkOrInstallTool_hit tool (snd first) d Hfind Htruthy) as H2.
  fold second in H2.
  assert (Hev : events_of (checkOrInstallTool E tool) (snd first)
                = [EvFind (name tool) spec]).
  { apply events_of_appended. fold second. rewrite H2. reflexivity. }
  rewrite H2. cbn [fst snd world].
  split; [reflexivity |]. split; [reflexivity |].
  split; [exact Hev |].
  split; [rewrite Hev; repeat constructor |].
  split.
  - intros d0 Hfind0 Htruthy0.
    pose proof (checkOrInstallTool_hit tool st d0 Hfind0 Htruthy0) as H1.
    fold first in H1. rewrite H1 in Hfind. cbn [snd world] in Hfind.
    fold spec in Hfind0. rewrite Hfind0 in Hfind.
    inversion Hfind; subst d0. rewrite H1. reflexivity.
  - intros i1 Hfirst Hdir.
    destruct first as [r1 st1] eqn:Hrun. cbn [fst] in Hfirst. subst r1.
    rewrite (checkOrInstallTool_result tool st st1 i1 Hrun), Hdir.
    reflexivity.
Qed.

(** *** Staging a naked executable *)

Lemma extract_naked_run (n v url artifact : string) (st : St W)
    (made : string) (w1 w2 : W) :
  Js.endsWith url ".zip" = false ->
  Js.endsWith url ".tar.gz" = false ->
  Js.endsWith url ".tgz" = false ->
  fs_mkdir E staging_dir (world st) = (Ok (Some made), w1) ->
  Js.truthy made = true ->
  fs_rename E artifact (path_join E made n) w1 = (Ok tt, w2) ->
  extract E n v url artifact st
  = (Ok made,
     mkSt w2
       (log st ++
        [ EvDebug ("Did not find archive to extract for " ++ n ++ " v" ++ v
                   ++ ", treating downloaded tool as naked binary");
          EvMkdir staging_dir;
          EvRename artifact (path_join E made n);
          EvDebug ("Successfully moved binary from " ++ artifact ++ " to "
                   ++ path_join E made n);
          EvDebug ("Successfully extracted binary for " ++ n ++ " v" ++ v) ])).
Proof.
  intros Hzip Htar Htgz Hmk Hmade Hrn.
  destruct st as [w0 l0]. cbn [world log] in *.
  unfold extract. rewrite Hzip, Htar, Htgz. cbn [orb].
  run_m. rewrite Hmk. cbn [Js.otruthy Js.show]. rewrite Hmade.
  run_m. rewrite Hrn. run_m.
  f_equal. f_equal. log_shape.
Qed.

(** When the rename is rejected, nobody handles the rejection. *)
Lemma extract_naked_rejected (n v url artifact : string) (st : St W)
    (made : string) (w1 w2 : W) (e : exn) :
  Js.endsWith url ".zip" = false ->
  Js.endsWith url ".tar.gz" = false ->
  Js.endsWith url ".tgz" = false ->
  fs_mkdir E staging_dir (world st) = (Ok (Some made), w1) ->
  Js.truthy made = true ->
  fs_rename E artifact (path_join E made n) w1 = (Throw e, w2) ->
  fst (extract E n v url artifact st) = Exit e.
Proof.
  intros Hzip Htar Htgz Hmk Hmade Hrn.
  destruct st as [w0 l0]. cbn [world log] in *.
  unfold extract. rewrite Hzip, Htar, Htgz. cbn [orb].
  run_m. rewrite Hmk. cbn [Js.otruthy Js.show]. rewrite Hmade.
  run_m. rewrite Hrn. reflexivity.
Qed.

(** When [fs.mkdir] creates the staging directory and the rename
    succeeds, the artifact is moved into it under the tool's name. *)
Lemma extract_naked_created (n v url artifact : string) (st : St W)
    (made : string) (w1 w2 : W) :
  Js.endsWith url ".zip" = false ->
  Js.endsWith url ".tar.gz" = false ->
  Js.endsWith url ".tgz" = false ->
  fs_mkdir E staging_dir (world st) = (Ok (Some made), w1) ->
  Js.truthy made = true ->
  fs_rename E artifact (path_join E made n) w1 = (Ok tt, w2) ->
  fst (extract E n v url artifact st) = Ok made
  /\ In (EvRename artifact (path_join E made n))
        (events_of (extract E n v url artifact) st).
Proof.
  intros Hzip Htar Htgz Hmk Hmade Hrn.
  pose proof (extract_naked_run n v url artifact st made w1 w2
                Hzip Htar Htgz Hmk Hmade Hrn) as Hrun.
  split.
  - now rewrite Hrun.
  - erewrite events_of_appended by (rewrite Hrun; reflexivity).
    simpl. tauto.
Qed.

Lemma extract_naked_exists_run (n v url artifact : string) (st : St W)
    (w1 : W) :
  Js.endsWith url ".zip" = false ->
  Js.endsWith url ".tar.gz" = false ->
  Js.endsWith url ".tgz" = false ->
  fs_mkdir E staging_dir (world st) = (Ok None, w1) ->
  extract E n v url artifact st
  = (Throw StagingFailed,
     mkSt w1
       (log st ++
        [ EvDebug ("Did not find archive to extract for " ++ n ++ " v" ++ v
                   ++ ", treating downloaded tool as naked binary");
          EvMkdir staging_dir ])).
Proof.
  intros Hzip Htar Htgz Hmk.
  destruct st as [w0 l0]. cbn [world log] in *.
  unfold extract. rewrite Hzip, Htar, Htgz. cbn [orb].
  run_m. rewrite Hmk. cbn [Js.otruthy].
  run_m. f_equal. f_equal. log_shape.
Qed.

(** C4, where the code departs from it. When the staging directory
    exists already, [fs.mkdir] with [recursive: true] resolves with
    [undefined], and the installer throws instead of staging the
    artifact: nothing is moved. *)
Theorem staging_fails_when_directory_exists (n v url artifact : string)
    (st : St W) (w1 : W) :
  Js.endsWith url ".zip" = false ->
  Js.endsWith url ".tar.gz" = false ->
  Js.endsWith url ".tgz" = false ->
  fs_mkdir E staging_dir (world st) = (Ok None, w1) ->
  fst (extract E n v url artifact st)
  = Throw (Error "Failed to create temporary directory for binary extraction")
  /\ Forall (fun e => match e with EvRename _ _ => False | _ => True end)
            (events_of (extract E n v url artifact) st).
Proof.
  intros Hzip Htar Htgz Hmk.
  pose proof (extract_naked_exists_run n v url artifact st w1
                Hzip Htar Htgz Hmk) as Hrun.
  split.
  - now rewrite Hrun.
  - erewrite events_of_appended by (rewrite Hrun; reflexivity).
    repeat constructor.
Qed.

End Installer.

Section Normalizing.

Variable W : Type.
Variable E : Services W.

(** *** Permission repair *)

Lemma handleBadBinaryPermissions_windows (tool : Tool) (dir : string)
    (st : St W) :
  proc_platform E = "win32" ->
  handleBadBinaryPermissions E tool dir st = (Ok tt, st).
Proof.
  intros Hwin. unfold handleBadBinaryPermissions. rewrite Hwin.
  reflexivity.
Qed.

(** What [handleBadBinaryPermissions] does away from Windows, given
    the directory's entries and the outcome of [fs.chmod]. *)
Lemma handleBadBinaryPermissions_run (tool : Tool) (dir : string)
    (st : St W) (files : list string) (r : result unit) (w1 : W) :
  proc_platform E <> "win32" ->
  (Js.otruthy (bin tool) = false ->
   fs_readdir E (world st) dir = Ok files) ->
  let binary :=
    path_join E dir (Spec.located_binary (js_toLowerCase E) tool files) in
  let listed := if Js.otruthy (bin tool) then [] else [EvReaddir dir] in
  fs_chmod E binary "755" (world st) = (r, w1) ->
  handleBadBinaryPermissions E tool dir st
  = if fs_access_x E (world st) binary then
      (Ok tt, mkSt (world st) (log st ++ listed ++ [EvAccess binary]))
    else
      match r with
      | Ok _ =>
          (Ok tt,
           mkSt w1 (log st ++ listed
                    ++ [EvAccess binary; EvChmod binary "755";
                        EvDebug ("Fixed file permissions (-> 0o755) for "
                                 ++ binary)]))
      | Throw e =>
          (Throw e,
           mkSt w1 (log st ++ listed
                    ++ [EvAccess binary; EvChmod binary "755"]))
      | Exit e =>
          (Exit e,
           mkSt w1 (log st ++ listed
                    ++ [EvAccess binary; EvChmod binary "755"]))
      end.
Proof.
  intros Hplat Hfiles binary listed Hchmod.
  apply String.eqb_neq in Hplat.
  destruct st as [w0 l0]. cbn [world log] in *.
  unfold handleBadBinaryPermissions. rewrite Hplat. cbn [negb].
  subst binary listed. unfold Spec.located_binary in *.
  rewrite <- (findBin_loop_find E) in *.
  unfold findBin.
  destruct (Js.otruthy (bin tool)) eqn:Hbin.
  - run_m.
    destruct (fs_access_x E w0 (path_join E dir (Js.show (bin tool)))).
    + state_eq.
    + run_m. rewrite Hchmod.
      destruct r as [[] | e | e]; state_eq.
  - run_m. rewrite (Hfiles eq_refl).
    destruct (fs_access_x E w0
                (path_join E dir (findBin_loop E (name tool) files))).
    + state_eq.
    + run_m. rewrite Hchmod.
      destruct r as [[] | e | e]; state_eq.
Qed.

(** The events of a permission repair never include a call to the
    cache. *)
Lemma handleBadBinaryPermissions_log (tool : Tool) (dir : string)
    (st : St W) :
  exists evs,
    log (snd (handleBadBinaryPermissions E tool dir st)) = log st ++ evs
    /\ cacheDir_calls evs = [].
Proof.
  destruct st as [w0 l0].
  unfold handleBadBinaryPermissions, findBin.
  destruct (negb (proc_platform E =? "win32"));
    [| exists []; split; [symmetry; apply app_nil_r | reflexivity]].
  assert (Htail : forall file (l : list Event),
             cacheDir_calls l = [] ->
             exists evs,
               log (snd ((executable <- fs_access_x_ E (path_join E dir file) ;;
                          if executable then ret tt
                          else fs_chmod_ E (path_join E dir file) "755" ;;
                               core_debug
                                 ("Fixed file permissions (-> 0o755) for "
                                  ++ path_join E dir file))
                           (mkSt w0 (l0 ++ l))))
               = l0 ++ evs
               /\ cacheDir_calls evs = []).
  { intros file l Hl. run_m.
    destruct (fs_access_x E w0 (path_join E dir file)).
    - exists (l ++ [EvAccess (path_join E dir file)]). split.
      + cbn [snd log]. log_shape.
      + unfold cacheDir_calls in *. rewrite flat_map_app, Hl. reflexivity.
    - run_m.
      destruct (fs_chmod E (path_join E dir file) "755" w0) as [[[] | e | e] w1];
        run_m; eexists; (split; [log_shape |]);
        unfold cacheDir_calls in *; rewrite flat_map_app, Hl; reflexivity. }
  assert (Hfind : exists evs,
             log (snd ((file <- (files <- fs_readdir_ E dir ;;
                                 ret (findBin_loop E (name tool) files)) ;;
                        executable <- fs_access_x_ E (path_join E dir file) ;;
                        if executable then ret tt
                        else fs_chmod_ E (path_join E dir file) "755" ;;
                             core_debug
                               ("Fixed file permissions (-> 0o755) for "
                                ++ path_join E dir file))
                         (mkSt w0 l0)))
             = l0 ++ evs
             /\ cacheDir_calls evs = []).
  { unfold bind at 1. unfold bind at 1. unfold fs_readdir_, query.
    cbn [world log].
    destruct (fs_readdir E w0 dir) as [files | e | e].
    - unfold ret at 1. apply (Htail _ [EvReaddir dir]). reflexivity.
    - exists [EvReaddir dir]. split; reflexivity.
    - exists [EvReaddir dir]. split; reflexivity. }
  destruct (Js.otruthy (bin tool)); [| exact Hfind].
  unfold bind at 1. unfold ret at 1.
  destruct (Htail (Js.show (bin tool)) [] eq_refl) as [evs [Hlog Hc]].
  rewrite app_nil_r in Hlog. exists evs. split; assumption.
Qed.

End Normalizing.

Section Caching.

Variable W : Type.
Variable E : Services W.

(** *** Directory normalisation *)

Lemma single_directory_run (extractDir : string) (st : St W)
    (files : list string) (isDir : bool) :
  fs_readdir E (world st) extractDir = Ok files ->
  (forall f, files = [f] ->
             fs_lstat_isDirectory E (world st) (path_join E extractDir f)
             = Ok isDir) ->
  single_directory E extractDir st
  = match files with
    | [f] =>
        (Ok (if isDir then path_join E extractDir f else extractDir),
         mkSt (world st)
              (log st ++ [EvReaddir extractDir;
                          EvLstat (path_join E extractDir f)]))
    | _ =>
        (Ok extractDir,
         mkSt (world st) (log st ++ [EvReaddir extractDir]))
    end.
Proof.
  intros Hfiles Hlstat.
  destruct st as [w0 l0]. cbn [world log] in *.
  unfold single_directory. run_m. rewrite Hfiles.
  destruct files as [| f [| g files]]; try reflexivity.
  run_m. rewrite (Hlstat f eq_refl).
  destruct isDir; state_eq.
Qed.

Lemma cache_extracted_calls (tool : Tool) (v src : string) (st st1 : St W)
    (extractDir : string) (evs : list Event) :
  single_directory E extractDir st = (Ok src, st1) ->
  log st1 = log st ++ evs ->
  cacheDir_calls evs = [] ->
  cacheDir_calls (events_of (cache_extracted E tool v extractDir) st)
  = [(src, name tool, v)].
Proof.
  intros Hsd Hlog Hevs.
  destruct st as [w0 l0]. destruct st1 as [w1 l1].
  cbn [log] in Hlog. subst l1.
  assert (Hex : exists more,
             log (snd (cache_extracted E tool v extractDir (mkSt w0 l0)))
             = l0 ++ evs ++ EvCacheDir src (name tool) v :: more
             /\ cacheDir_calls more = []).
  { unfold cache_extracted. unfold bind at 1. rewrite Hsd.
    unfold bind at 1. unfold tc_cacheDir_, command. cbn [world log].
    destruct (tc_cacheDir E src (name tool) v w1) as [[d | e | e] w2].
    - unfold bind at 1.
      destruct (handleBadBinaryPermissions_log W E tool d
                  (mkSt w2 ((l0 ++ evs) ++ [EvCacheDir src (name tool) v])))
        as [more [Hmore Hnone]].
      cbn [log] in Hmore.
      destruct (handleBadBinaryPermissions E tool d
                  (mkSt w2 ((l0 ++ evs) ++ [EvCacheDir src (name tool) v])))
        as [[[] | e | e] st3];
        unfold ret; cbn [snd] in *; exists more; (split; [| exact Hnone]);
        rewrite Hmore; log_shape.
    - exists []. split; [cbn [snd log]; log_shape | reflexivity].
    - exists []. split; [cbn [snd log]; log_shape | reflexivity]. }
  destruct Hex as [more [Hlog Hmore]].
  erewrite events_of_appended by (cbn [log]; exact Hlog).
  unfold cacheDir_calls in *.
  rewrite flat_map_app, Hevs. cbn [flat_map app]. rewrite Hmore.
  reflexivity.
Qed.

End Caching.

(* ------------------------------------------------------------------ *)
(** ** The installer at work in the small world *)

(** A first invocation that installs just 1.2.0 on a fresh runner, and
    a second one served from the cache. *)
Lemma warm_cache_idempotent_witness :
  let first := checkOrInstallTool Sim.linux Sim.just (mkSt Sim.fresh []) in
  let second := checkOrInstallTool Sim.linux Sim.just (snd first) in
  fst second = Ok {| version := "1.2.0"; dir := "/cache/just/1.2.0/x64";
                     tool := Sim.just |}
  /\ world (snd second) = world (snd first)
  /\ events_of (checkOrInstallTool Sim.linux Sim.just) (snd first)
     = [EvFind "just" "*"]
  /\ fst second = fst first.
Proof.
  intros first second.
  destruct (warm_cache_idempotent Sim.World Sim.linux Sim.just
              (mkSt Sim.fresh []) "/cache/just/1.2.0/x64")
    as [Hres [Hworld [Hev [_ [_ Hsame]]]]].
  - vm_compute. reflexivity.
  - reflexivity.
  - split; [exact Hres |]. split; [exact Hworld |]. split; [exact Hev |].
    apply (Hsame {| version := "1.2.0"; dir := "/cache/just/1.2.0/x64";
                    tool := Sim.just |}).
    + vm_compute. reflexivity.
    + reflexivity.
Defined.

(** With the cache warm from the start, both invocations are hits. *)
Example hit_then_hit :
  let first := run (checkOrInstallTool Sim.linux Sim.just) Sim.warm in
  let second := checkOrInstallTool Sim.linux Sim.just (snd first) in
  fst second = fst first
  /\ log (snd second) = [EvFind "just" "*"; EvFind "just" "*"]
  /\ world (snd second) = Sim.warm.
Proof. vm_compute. repeat split; reflexivity. Qed.

Lemma staging_fails_when_directory_exists_witness :
  fst (extract Sim.linux "just" "1.2.0"
         "https://example.org/just-1.2.0-x86_64-unknown-linux-musl"
         "/tmp/download" (mkSt Sim.naked_again []))
  = Throw (Error "Failed to create temporary directory for binary extraction")
  /\ Forall (fun e => match e with EvRename _ _ => False | _ => True end)
       (events_of (extract Sim.linux "just" "1.2.0"
                     "https://example.org/just-1.2.0-x86_64-unknown-linux-musl"
                     "/tmp/download") (mkSt Sim.naked_again [])).
Proof.
  apply (staging_fails_when_directory_exists Sim.World Sim.linux
           "just" "1.2.0"
           "https://example.org/just-1.2.0-x86_64-unknown-linux-musl"
           "/tmp/download" (mkSt Sim.naked_again []) Sim.naked_again);
    vm_compute; reflexivity.
Defined.

(** The first naked executable of a job is staged and installed. *)
Example naked_first_install :
  fst (run (checkOrInstallTool Sim.linux Sim.just) Sim.naked)
  = Ok {| version := "1.2.0"; dir := "/cache/just/1.2.0/x64";
          tool := Sim.just |}.
Proof. vm_compute. reflexivity. Qed.

(** The next one in the same job finds the staging directory in place,
    and fails. *)
Example naked_second_install :
  Sim.lstat_isDirectory
    (world (snd (run (checkOrInstallTool Sim.linux Sim.just) Sim.naked)))
    staging_dir = Ok true
  /\ fst (checkOrInstallTool Sim.linux Sim.other
            (snd (run (checkOrInstallTool Sim.linux Sim.just) Sim.naked)))
     = Throw StagingFailed.
Proof. vm_compute. split; reflexivity. Qed.

(** One level only: the folder inside the single folder stays. *)
Example single_directory_once :
  fst (single_directory Sim.linux "/tmp/extract" (mkSt Sim.nested []))
  = Ok "/tmp/extract/a"
  /\ Sim.readdir Sim.nested "/tmp/extract/a" = Ok ["b"]
  /\ Sim.lstat_isDirectory Sim.nested "/tmp/extract/a/b" = Ok true.
Proof. vm_compute. repeat split; reflexivity. Qed.

(* ------------------------------------------------------------------ *)
(** ** The action's inputs *)

Lemma truthy_not_empty (s : string) : s <> EmptyString <-> Js.truthy s = true.
Proof.
  destruct s; simpl; split; intros H; try congruence; try discriminate.
Qed.

Lemma split_all_not_nil (sep : ascii) (s : string) :
  Js.split_all sep s <> [].
Proof.
  destruct s as [| c s]; simpl; [discriminate |].
  destruct (Ascii.eqb c sep); [discriminate |].
  destruct (Js.split_all sep s); discriminate.
Qed.

Lemma startsWith_empty (s : string) : Js.startsWith s EmptyString = true.
Proof. destruct s; reflexivity. Qed.

(** A prefix without the separator stays in the first piece. *)
Lemma split_all_prefix (r s : string) :
  Js.includes r "@" = false ->
  Js.split_all "@" (r ++ s)
  = (r ++ hd EmptyString (Js.split_all "@" s))%string :: tl (Js.split_all "@" s).
Proof.
  induction r as [| a r IH]; intros Hno.
  - simpl. pose proof (split_all_not_nil "@" s) as Hne.
    destruct (Js.split_all "@" s); [contradiction | reflexivity].
  - cbn [Js.includes Js.startsWith] in Hno.
    apply orb_false_iff in Hno. destruct Hno as [Ha Hr].
    rewrite startsWith_empty, andb_true_r in Ha.
    assert (Ha' : Ascii.eqb a "@" = false)
      by (rewrite Ascii.eqb_sym; exact Ha).
    cbn [append Js.split_all]. rewrite Ha'. rewrite (IH Hr). reflexivity.
Qed.

(** The pieces of a combined spec [r@cv], [r] without [@] and [c] not
    an [@]: the repository, and a non-empty version. *)
Lemma split_repo_version (r : string) (c : ascii) (v : string) :
  Js.includes r "@" = false ->
  c <> "@"%char ->
  exists version,
    Js.split "@" 2 (r ++ "@" ++ String c v) = [r; String c version].
Proof.
  intros Hr Hc.
  apply Ascii.eqb_neq in Hc.
  assert (Hsep : forall s, Js.split_all "@" (String "@" s)
                           = EmptyString :: Js.split_all "@" s)
    by reflexivity.
  assert (Hver : Js.split_all "@" (String c v)
                 = match Js.split_all "@" v with
                   | [] => [String c EmptyString]
                   | p :: ps => String c p :: ps
                   end)
    by (cbn [Js.split_all]; rewrite Hc; reflexivity).
  assert (Hnil : (r ++ EmptyString)%string = r)
    by (clear; induction r as [| a r IH]; simpl; congruence).
  unfold Js.split. rewrite (split_all_prefix r _ Hr).
  change ("@" ++ String c v)%string with (String "@" (String c v)).
  rewrite Hsep, Hver. cbn [hd tl]. rewrite Hnil.
  pose proof (split_all_not_nil "@" v) as Hne.
  destruct (Js.split_all "@" v) as [| p ps]; [contradiction |].
  exists p. reflexivity.
Qed.

Section Inputs.

Variable W : Type.
Variable E : Services W.

Lemma main_repo_and_owner (i : Inputs) (st : St W) :
  Js.truthy (in_repo i) = true ->
  Js.truthy (in_owner i) || Js.truthy (in_name i) = true ->
  main E i st
  = (Ok tt, mkSt (world st) (log st ++ [EvSetFailed msg_repo_and_owner])).
Proof.
  intros Hrepo Hon. unfold main, main_body. rewrite Hrepo, Hon.
  reflexivity.
Qed.

Lemma main_two_versions (i : Inputs) (st : St W) :
  Js.truthy (in_owner i) || Js.truthy (in_name i) = false ->
  Spec.repo_has_version (in_repo i) ->
  Js.truthy (in_version i) = true ->
  main E i st
  = (Ok tt, mkSt (world st) (log st ++ [EvSetFailed msg_two_versions])).
Proof.
  intros Hon [r [c [v [Hrepo [Hr Hc]]]]] Hver.
  destruct (split_repo_version r c v Hr Hc) as [version Hsplit].
  assert (Htruthy : Js.truthy (in_repo i) = true).
  { rewrite Hrepo. destruct r; reflexivity. }
  unfold main, main_body. rewrite Htruthy, Hon.
  rewrite Hrepo, Hsplit. cbn [Js.at_index nth_error Js.otruthy Js.truthy].
  rewrite Hver. reflexivity.
Qed.

(** C9. When the inputs conflict (a combined [repo] spec together
    with [owner] or [name], or a version both in the combined spec and
    in [version]), [main] fails the action with one of the two
    conflict messages, and that is all it does: no package is called,
    so there is no network access, and the world is unchanged. *)
Theorem conflicting_input_fails_first (i : Inputs) (st : St W) :
  Spec.conflicting i ->
  exists msg,
    ConflictingInput msg
    /\ main E i st
       = (Ok tt, mkSt (world st) (log st ++ [EvSetFailed msg]))
    /\ Forall (fun e => is_network e = false)
              (events_of (main E i) st).
Proof.
  intros Hconf.
  assert (Hmsg : exists msg,
             ConflictingInput msg
             /\ main E i st
                = (Ok tt, mkSt (world st) (log st ++ [EvSetFailed msg]))).
  { destruct (Js.truthy (in_owner i) || Js.truthy (in_name i)) eqn:Hon.
    - exists msg_repo_and_owner. split; [now left |].
      apply main_repo_and_owner; [| exact Hon].
      destruct Hconf as [[Hrepo _] | [[r [c [v [Hrepo _]]]] _]].
      + now apply truthy_not_empty.
      + rewrite Hrepo. destruct r; reflexivity.
    - exists msg_two_versions. split; [now right |].
      destruct Hconf as [[_ Hsep] | [Hrepo Hver]].
      + apply orb_false_iff in Hon. destruct Hon as [Ho Hn].
        destruct Hsep as [H | H]; apply truthy_not_empty in H; congruence.
      + apply main_two_versions; try assumption.
        now apply truthy_not_empty. }
  destruct Hmsg as [msg [Hkind Hrun]].
  exists msg. repeat split; try assumption.
  erewrite events_of_appended by (rewrite Hrun; reflexivity).
  repeat constructor.
Qed.

End Inputs.

Lemma conflicting_input_fails_first_witness :
  exists msg,
    ConflictingInput msg
    /\ main Sim.linux (mkInputs "casey/just@1.1" EmptyString EmptyString EmptyString "1.2")
            (mkSt Sim.fresh [])
       = (Ok tt, mkSt Sim.fresh [EvSetFailed msg])
    /\ Forall (fun e => is_network e = false)
              (events_of (main Sim.linux
                            (mkInputs "casey/just@1.1" EmptyString EmptyString EmptyString "1.2"))
                         (mkSt Sim.fresh [])).
Proof.
  apply (conflicting_input_fails_first Sim.World Sim.linux
           (mkInputs "casey/just@1.1" EmptyString EmptyString EmptyString "1.2") (mkSt Sim.fresh [])).
  right. split.
  - exists "casey/just", "1"%char, ".1". repeat split.
    intros H. discriminate H.
  - simpl. discriminate.
Defined.

(** Without a conflict the action installs the tool. *)
Example main_installs :
  log (snd (run (main Sim.linux (mkInputs "casey/just@1.1" EmptyString EmptyString EmptyString EmptyString))
                Sim.fresh))
  = [ EvFind "just" "1.1";
      EvListReleases "casey" "just" 1; EvListReleases "casey" "just" 2;
      EvDownload "https://example.org/just-1.2.0-x86_64-unknown-linux-gnu.tar.gz";
      EvDebug "Successfully downloaded just v1.1.4";
      EvExtractTar "/tmp/download";
      EvDebug "Successfully extracted tar archive for just v1.1.4";
      EvReaddir "/tmp/extract"; EvLstat "/tmp/extract/just-1.2.0";
      EvCacheDir "/tmp/extract/just-1.2.0" "just" "1.1.4";
      EvReaddir "/cache/just/1.1.4/x64";
      EvAccess "/cache/just/1.1.4/x64/just";
      EvChmod "/cache/just/1.1.4/x64/just" "755";
      EvDebug "Fixed file permissions (-> 0o755) for /cache/just/1.1.4/x64/just";
      EvAddPath "/cache/just/1.1.4/x64";
      EvInfo "Successfully setup just v1.1.4" ].
Proof. vm_compute. reflexivity. Qed.

(* ================================================================== *)
(** * Further properties of the code *)

(* ------------------------------------------------------------------ *)
(** ** The locator, whatever the listing *)

Section LocatorAtLarge.

Variable W : Type.
Variable E : Services W.

Lemma bind_ret_snd {A B : Type} (m : M W A) (f : A -> B) (st : St W) :
  snd ((x <- m ;; ret (f x)) st) = snd (m st).
Proof.
  unfold bind, ret. destruct (m st) as [[a | e | e] st']; reflexivity.
Qed.

Lemma bind_ret_fst {A B : Type} (m : M W A) (f : A -> B) (st : St W) :
  fst ((x <- m ;; ret (f x)) st)
  = match fst (m st) with
    | Ok a => Ok (f a)
    | Throw e => Throw e
    | Exit e => Exit e
    end.
Proof.
  unfold bind, ret. destruct (m st) as [[a | e | e] st']; reflexivity.
Qed.

(** A walk over the pages requests a prefix of them, in order, and
    touches nothing else. *)
Lemma paginate_from_log {A : Type} (owner repo : string)
    (mapFn : list GhRelease -> list A * bool)
    (pages : list (list GhRelease)) (n : nat) (st : St W) :
  exists k,
    k <= length pages
    /\ snd (paginate_from owner repo mapFn pages n st)
       = mkSt (world st)
              (log st ++ map (EvListReleases owner repo) (seq n k)).
Proof.
  revert n st. induction pages as [| page older IH]; intros n st.
  - exists 0. split; [apply Nat.le_refl |].
    destruct st as [w l]. cbn. now rewrite app_nil_r.
  - rewrite paginate_from_cons. unfold bind at 1, emit at 1.
    destruct (mapFn page) as [results done]. destruct done.
    + exists 1. split; [cbn; lia |]. reflexivity.
    + rewrite bind_ret_snd.
      destruct (IH (S n) (mkSt (world st)
                            (log st ++ [EvListReleases owner repo n])))
        as [k [Hk Hlog]].
      exists (S k). split; [cbn; lia |].
      rewrite Hlog. cbn [world log seq map]. now rewrite <- app_assoc.
Qed.

(** Every result of a walk comes from the callback on one of the
    pages. *)
Lemma paginate_from_results {A : Type} (owner repo : string)
    (mapFn : list GhRelease -> list A * bool)
    (pages : list (list GhRelease)) (n : nat) (st : St W)
    (results : list A) (x : A) :
  fst (paginate_from owner repo mapFn pages n st) = Ok results ->
  In x results ->
  exists page, In page pages /\ In x (fst (mapFn page)).
Proof.
  revert n st results.
  induction pages as [| page older IH]; intros n st results Hrun Hx.
  - cbn in Hrun. inversion Hrun; subst. destruct Hx.
  - rewrite paginate_from_cons in Hrun. unfold bind at 1, emit at 1 in Hrun.
    destruct (mapFn page) as [here done] eqn:Hpage. destruct done.
    + cbn in Hrun. inversion Hrun; subst.
      exists page. rewrite Hpage. split; [now left | exact Hx].
    + rewrite bind_ret_fst in Hrun.
      destruct (fst (paginate_from owner repo mapFn older (S n)
                       (mkSt (world st)
                             (log st ++ [EvListReleases owner repo n]))))
        as [rest | e | e] eqn:Hrest; try discriminate.
      inversion Hrun; subst. apply in_app_or in Hx.
      destruct Hx as [Hx | Hx].
      * exists page. rewrite Hpage. split; [now left | exact Hx].
      * destruct (IH _ _ _ Hrest Hx) as [p [Hp Hin]].
        exists p. split; [now right | exact Hin].
Qed.

Lemma getRelease_log (tool : Tool) (st : St W) :
  exists k,
    k <= length (gh_releases E (world st) (owner tool) (name tool))
    /\ snd (getRelease E tool st)
       = mkSt (world st)
              (log st ++ page_requests (owner tool) (name tool) k).
Proof.
  unfold getRelease, page_requests. unfold bind at 1, lift at 1.
  destruct (getTargets (proc_arch E) (proc_platform E)) as [targets | e | e].
  - unfold bind at 1, paginate at 1.
    destruct (paginate_from_log (owner tool) (name tool)
                (page_callback E targets (versionSpec tool))
                (gh_releases E (world st) (owner tool) (name tool)) 1 st)
      as [k [Hk Hlog]].
    exists k. split; [exact Hk |].
    destruct (paginate_from (owner tool) (name tool)
                (page_callback E targets (versionSpec tool))
                (gh_releases E (world st) (owner tool) (name tool)) 1 st)
      as [[releases | e | e] st1]; cbn [snd] in *;
      [| exact Hlog | exact Hlog].
    destruct (find (fun release => Boolean release) releases)
      as [[release |] |]; exact Hlog.
  - exists 0. split; [apply Nat.le_0_l |].
    destruct st as [w l]. cbn. now rewrite app_nil_r.
  - exists 0. split; [apply Nat.le_0_l |].
    destruct st as [w l]. cbn. now rewrite app_nil_r.
Qed.

(** X1. [getRelease] only reads: whatever the listing holds and
    whether it succeeds or throws, it leaves the world unchanged and
    its calls are the requests for the pages [1 .. k] of the
    repository, in order, for some [k] that does not exceed the number
    of pages; none of them writes to the file system. *)
Theorem getRelease_only_lists (tool : Tool) (st : St W) :
  exists k,
    k <= length (gh_releases E (world st) (owner tool) (name tool))
    /\ snd (getRelease E tool st)
       = mkSt (world st)
              (log st ++ page_requests (owner tool) (name tool) k)
    /\ Forall (fun e => is_fs_mutation e = false)
              (events_of (getRelease E tool) st).
Proof.
  destruct (getRelease_log tool st) as [k [Hk Hlog]].
  exists k. split; [exact Hk |]. split; [exact Hlog |].
  erewrite events_of_appended by (rewrite Hlog; reflexivity).
  unfold page_requests. apply Forall_forall. intros e He.
  apply in_map_iff in He. destruct He as [p [<- _]]. reflexivity.
Qed.

Lemma to_release_asset (targets : list string) (rel : GhRelease)
    (c : Release) :
  to_release targets rel = Some c ->
  exists asset,
    In asset (assets rel)
    /\ Spec.matches_target targets asset
    /\ c = {| rel_version := Js.strip_v (tag_name rel);
              downloadUrl := browser_download_url asset |}.
Proof.
  unfold to_release.
  destruct (find (asset_matches targets) (assets rel)) as [asset |] eqn:Hf;
    try discriminate.
  intros H. inversion H; subst; clear H.
  apply find_some in Hf. destruct Hf as [Hin Hm].
  exists asset. repeat split; [exact Hin |]. now apply asset_matches_true.
Qed.

(** X2. Whatever [getRelease] returns is acceptable: the candidate is
    built from a release of the listing, its URL is that of an asset of
    this release whose name contains an accepted target, its version
    is the release's tag without a leading [v], and a non-empty
    constraint is satisfied by that version. *)
Theorem getRelease_sound (tool : Tool) (st st1 : St W) (r : Release) :
  getRelease E tool st = (Ok r, st1) ->
  exists targets rel asset,
    getTargets (proc_arch E) (proc_platform E) = Ok targets
    /\ In rel (concat (gh_releases E (world st) (owner tool) (name tool)))
    /\ In asset (assets rel)
    /\ Spec.matches_target targets asset
    /\ r = {| rel_version := Js.strip_v (tag_name rel);
              downloadUrl := browser_download_url asset |}
    /\ (Js.otruthy (versionSpec tool) = true ->
        semver_satisfies E (rel_version r) (Js.show (versionSpec tool))
        = true).
Proof.
  unfold getRelease. unfold bind at 1, lift at 1.
  destruct (getTargets (proc_arch E) (proc_platform E)) as [targets | e | e];
    try discriminate.
  unfold bind at 1, paginate at 1.
  destruct (paginate_from (owner tool) (name tool)
              (page_callback E targets (versionSpec tool))
              (gh_releases E (world st) (owner tool) (name tool)) 1 st)
    as [[releases | e | e] st2] eqn:Hrun; try discriminate.
  destruct (find (fun release => Boolean release) releases)
    as [[release |] |] eqn:Hfind; try discriminate.
  unfold ret. intros H. inversion H; subst; clear H.
  apply find_some in Hfind. destruct Hfind as [Hin _].
  destruct (paginate_from_results (owner tool) (name tool)
              (page_callback E targets (versionSpec tool))
              (gh_releases E (world st) (owner tool) (name tool)) 1 st
              releases (Some r))
    as [page [Hpage Hcand]]; [now rewrite Hrun | exact Hin |].
  cbn [page_callback fst] in Hcand.
  apply filter_In in Hcand. destruct Hcand as [Hcand Hver].
  apply filter_In in Hcand. destruct Hcand as [Hcand _].
  apply in_map_iff in Hcand. destruct Hcand as [rel [Hrel Hdata]].
  destruct (to_release_asset targets rel r Hrel)
    as [asset [Hasset [Hmatch Heq]]].
  exists targets, rel, asset.
  repeat split; try assumption.
  - apply in_concat. exists page. split; assumption.
  - intros Hspec. unfold version_filter in Hver.
    destruct (versionSpec tool) as [spec |]; [| discriminate Hspec].
    cbn in Hspec. rewrite Hspec in Hver. exact Hver.
Qed.

(** X3. On a platform outside the table [getRelease] throws the
    unsupported-platform error at once: no page is requested and
    nothing changes. *)
Theorem getRelease_unsupported_platform (tool : Tool) (st : St W) :
  ~ In (proc_arch E, proc_platform E) supported_pairs ->
  getRelease E tool st
  = (Throw (UnsupportedPlatform (proc_arch E) (proc_platform E)), st).
Proof.
  intros Hout. unfold getRelease.
  rewrite (getTargets_unsupported _ _ Hout). reflexivity.
Qed.

End LocatorAtLarge.

(* ------------------------------------------------------------------ *)
(** ** The installer, step by step *)

Section InstallerAtLarge.

Variable W : Type.
Variable E : Services W.

(** The start of a cache miss. *)
Lemma checkOrInstallTool_miss (tool : Tool) (st : St W) (found : string) :
  tc_find E (world st) (name tool) (Js.or_else (versionSpec tool) "*")
  = Ok found ->
  Js.truthy found = false ->
  checkOrInstallTool E tool st
  = (dir <- install E tool ;;
     ret {| version := path_basename E (path_dirname E dir);
            dir := dir; tool := tool |})
      (mkSt (world st)
            (log st ++ [EvFind (name tool)
                               (Js.or_else (versionSpec tool) "*")])).
Proof.
  intros Hfind Hfalsy.
  unfold checkOrInstallTool. unfold bind at 1, tc_find_, query.
  rewrite Hfind, Hfalsy. reflexivity.
Qed.

(** X4. On a cache miss, an error of the locator is the error of the
    installer, unchanged; by then only the cache has been queried and
    pages of the listing requested: nothing was downloaded, extracted
    or cached, and the world is as it was. *)
Theorem install_stops_without_release (tool : Tool) (st st2 : St W)
    (found : string) (e : exn) :
  let spec := Js.or_else (versionSpec tool) "*" in
  tc_find E (world st) (name tool) spec = Ok found ->
  Js.truthy found = false ->
  getRelease E tool (mkSt (world st) (log st ++ [EvFind (name tool) spec]))
  = (Throw e, st2) ->
  checkOrInstallTool E tool st = (Throw e, st2)
  /\ world st2 = world st
  /\ exists k,
       log st2 = log st ++ EvFind (name tool) spec
                        :: page_requests (owner tool) (name tool) k.
Proof.
  intros spec Hfind Hfalsy Hget.
  split.
  - rewrite (checkOrInstallTool_miss tool st found Hfind Hfalsy).
    fold spec. unfold bind at 1. unfold install. unfold bind at 1.
    rewrite Hget. reflexivity.
  - destruct (getRelease_log W E tool
                (mkSt (world st) (log st ++ [EvFind (name tool) spec])))
      as [k [_ Hlog]].
    rewrite Hget in Hlog. cbn [snd world log] in Hlog. subst st2.
    split; [reflexivity |].
    exists k. cbn [log]. now rewrite <- app_assoc.
Qed.

(** X5. On a cache miss, when the download of the located asset
    fails, the installer throws the error of the download; the
    artifact is never extracted or cached. *)
Theorem install_stops_without_download (tool : Tool) (st st2 : St W)
    (found : string) (r : Release) (e : exn) (w3 : W) :
  let spec := Js.or_else (versionSpec tool) "*" in
  tc_find E (world st) (name tool) spec = Ok found ->
  Js.truthy found = false ->
  getRelease E tool (mkSt (world st) (log st ++ [EvFind (name tool) spec]))
  = (Ok r, st2) ->
  tc_downloadTool E (downloadUrl r) (world st2) = (Throw e, w3) ->
  checkOrInstallTool E tool st
  = (Throw e, mkSt w3 (log st2 ++ [EvDownload (downloadUrl r)])).
Proof.
  intros spec Hfind Hfalsy Hget Hdl.
  rewrite (checkOrInstallTool_miss tool st found Hfind Hfalsy).
  fold spec. unfold bind at 1. unfold install. unfold bind at 1.
  rewrite Hget. unfold bind at 1, tc_downloadTool_, command.
  rewrite Hdl. reflexivity.
Qed.

(** X6. The suffix of the download URL chooses the extractor:
    [.zip] goes to [tc.extractZip], and [.tar.gz] or [.tgz] (when the
    URL does not end in [.zip]) to [tc.extractTar].  The extractor is
    the only call besides the debug message, its directory is the
    extraction directory, and its error is the error of the step. *)
Theorem extract_by_suffix (n v url artifact : string) (st : St W) :
  (Js.endsWith url ".zip" = true ->
   extract E n v url artifact st
   = match tc_extractZip E artifact (world st) with
     | (Ok d, w1) =>
         (Ok d,
          mkSt w1 (log st ++
                   [EvExtractZip artifact;
                    EvDebug ("Successfully extracted zip archive for "
                             ++ n ++ " v" ++ v)]))
     | (Throw e, w1) =>
         (Throw e, mkSt w1 (log st ++ [EvExtractZip artifact]))
     | (Exit e, w1) =>
         (Exit e, mkSt w1 (log st ++ [EvExtractZip artifact]))
     end)
  /\ (Js.endsWith url ".zip" = false ->
      Js.endsWith url ".tar.gz" || Js.endsWith url ".tgz" = true ->
      extract E n v url artifact st
      = match tc_extractTar E artifact (world st) with
        | (Ok d, w1) =>
            (Ok d,
             mkSt w1 (log st ++
                      [EvExtractTar artifact;
                       EvDebug ("Successfully extracted tar archive for "
                                ++ n ++ " v" ++ v)]))
        | (Throw e, w1) =>
            (Throw e, mkSt w1 (log st ++ [EvExtractTar artifact]))
        | (Exit e, w1) =>
            (Exit e, mkSt w1 (log st ++ [EvExtractTar artifact]))
        end).
Proof.
  destruct st as [w0 l0]. cbn [world log]. split.
  - intros Hzip. unfold extract. rewrite Hzip. run_m.
    destruct (tc_extractZip E artifact w0) as [[d | e | e] w1]; state_eq.
  - intros Hzip Htar. unfold extract. rewrite Hzip, Htar. run_m.
    destruct (tc_extractTar E artifact w0) as [[d | e | e] w1]; state_eq.
Qed.

(** X7. A download that is no archive is staged under the directory
    [fs.mkdir] reports to have created: the artifact is renamed to
    the tool's name inside that directory, and that directory is the
    extraction directory. *)
Theorem naked_binary_staged (n v url artifact : string) (st : St W)
    (made : string) (w1 w2 : W) :
  Js.endsWith url ".zip" = false ->
  Js.endsWith url ".tar.gz" = false ->
  Js.endsWith url ".tgz" = false ->
  fs_mkdir E staging_dir (world st) = (Ok (Some made), w1) ->
  Js.truthy made = true ->
  fs_rename E artifact (path_join E made n) w1 = (Ok tt, w2) ->
  fst (extract E n v url artifact st) = Ok made
  /\ world (snd (extract E n v url artifact st)) = w2
  /\ filter is_fs_mutation (events_of (extract E n v url artifact) st)
     = [EvMkdir staging_dir; EvRename artifact (path_join E made n)].
Proof.
  intros Hzip Htar Htgz Hmk Hmade Hrn.
  pose proof (extract_naked_run W E n v url artifact st made w1 w2
                Hzip Htar Htgz Hmk Hmade Hrn) as Hrun.
  erewrite events_of_appended by (rewrite Hrun; reflexivity).
  rewrite Hrun. repeat split.
Qed.

(** X8. Hit or miss, the version of the result is read off the
    directory, as the name of its parent directory, and the tool is
    handed back as it came. *)
Theorem installed_version_from_path (t : Tool) (st st1 : St W)
    (installed : InstalledTool) :
  checkOrInstallTool E t st = (Ok installed, st1) ->
  version installed
  = path_basename E (path_dirname E (dir installed))
  /\ tool installed = t.
Proof.
  intros Hrun.
  rewrite (checkOrInstallTool_result W E t st st1 installed Hrun).
  split; reflexivity.
Qed.

(** X9. When the extraction directory cannot be listed, or its single
    entry cannot be examined, the error is the error of the step and
    the cache is not called. *)
Theorem nothing_cached_when_listing_fails (tool : Tool)
    (v extractDir : string) (st : St W) (e : exn) :
  (fs_readdir E (world st) extractDir = Throw e
   \/ exists f,
        fs_readdir E (world st) extractDir = Ok [f]
        /\ fs_lstat_isDirectory E (world st) (path_join E extractDir f)
           = Throw e) ->
  fst (cache_extracted E tool v extractDir st) = Throw e
  /\ world (snd (cache_extracted E tool v extractDir st)) = world st
  /\ cacheDir_calls (events_of (cache_extracted E tool v extractDir) st)
     = [].
Proof.
  intros Hfail. destruct st as [w0 l0]. cbn [world log] in *.
  assert (Hrun : exists evs,
             cache_extracted E tool v extractDir (mkSt w0 l0)
             = (Throw e, mkSt w0 (l0 ++ evs))
             /\ cacheDir_calls evs = []).
  { unfold cache_extracted, single_directory.
    destruct Hfail as [Hrd | [f [Hrd Hls]]].
    - exists [EvReaddir extractDir]. run_m. rewrite Hrd.
      split; reflexivity.
    - exists [EvReaddir extractDir; EvLstat (path_join E extractDir f)].
      run_m. rewrite Hrd. run_m. rewrite Hls. split; [state_eq | reflexivity]. }
  destruct Hrun as [evs [Hrun Hnone]].
  erewrite events_of_appended by (rewrite Hrun; reflexivity).
  rewrite Hrun. repeat split. exact Hnone.
Qed.

End InstallerAtLarge.

(** X10. The name [findBin] settles on has the same lower-case form as
    the tool name, under the case mapping of the runtime: it is an
    entry of the directory, the first one in the listing whose
    lower-case form is that of the tool name, or, when there is none,
    the tool name itself. *)
Theorem findBin_up_to_case {W : Type} (E : Services W) (name : string)
    (files : list string) :
  js_toLowerCase E (findBin_loop E name files) = js_toLowerCase E name
  /\ ((exists pre post,
          files = pre ++ findBin_loop E name files :: post
          /\ forall g, In g pre ->
                       js_toLowerCase E g <> js_toLowerCase E name)
      \/ (findBin_loop E name files = name
          /\ forall g, In g files ->
                       js_toLowerCase E g <> js_toLowerCase E name)).
Proof.
  induction files as [| f files [IHcase IHwhere]]; cbn [findBin_loop].
  - split; [reflexivity |]. right. split; [reflexivity |]. intros g [].
  - destruct (js_toLowerCase E f =? js_toLowerCase E name) eqn:Hf.
    + apply String.eqb_eq in Hf. split; [exact Hf |].
      left. exists [], files. split; [reflexivity |]. intros g [].
    + apply String.eqb_neq in Hf. split; [exact IHcase |].
      destruct IHwhere as [[pre [post [Hfiles Hpre]]] | [Hname Hnone]].
      * left. exists (f :: pre), post. split.
        -- cbn. now rewrite <- Hfiles.
        -- intros g [Hg | Hg]; [subst g; exact Hf | now apply Hpre].
      * right. split; [exact Hname |].
        intros g [Hg | Hg]; [subst g; exact Hf | now apply Hnone].
Qed.

(* ------------------------------------------------------------------ *)
(** ** What the library never reports *)

Section Quiet.

Variable W : Type.
Variable E : Services W.

Lemma quiet_ret {A : Type} (a : A) : quiet (ret (W:=W) a).
Proof.
  intros st. exists []. split; [symmetry; apply app_nil_r | constructor].
Qed.

Lemma quiet_throw {A : Type} (e : exn) : quiet (throw (W:=W) (A:=A) e).
Proof.
  intros st. exists []. split; [symmetry; apply app_nil_r | constructor].
Qed.

Lemma quiet_lift {A : Type} (r : result A) : quiet (lift (W:=W) r).
Proof.
  intros st. exists []. split; [symmetry; apply app_nil_r | constructor].
Qed.

Lemma quiet_emit (e : Event) : is_report e = false -> quiet (emit (W:=W) e).
Proof.
  intros He st. exists [e]. split; [reflexivity | now repeat constructor].
Qed.

Lemma quiet_query {A : Type} (e : Event) (f : W -> result A) :
  is_report e = false -> quiet (query e f).
Proof.
  intros He st. exists [e]. split; [reflexivity | now repeat constructor].
Qed.

Lemma quiet_command {A : Type} (e : Event) (f : W -> result A * W) :
  is_report e = false -> quiet (command e f).
Proof.
  intros He st. exists [e]. unfold command.
  destruct (f (world st)) as [r w].
  split; [reflexivity | now repeat constructor].
Qed.

Lemma quiet_bind {A B : Type} (m : M W A) (k : A -> M W B) :
  quiet m -> (forall a, quiet (k a)) -> quiet (bind m k).
Proof.
  intros Hm Hk st. unfold bind.
  destruct (Hm st) as [evs [Hlog Hevs]].
  destruct (m st) as [[a | e | e] st1]; cbn [snd] in *.
  - destruct (Hk a st1) as [evs' [Hlog' Hevs']].
    exists (evs ++ evs'). split.
    + rewrite Hlog', Hlog. now rewrite app_assoc.
    + apply Forall_app. split; assumption.
  - exists evs. split; assumption.
  - exists evs. split; assumption.
Qed.

Lemma quiet_unawaited {A : Type} (m : M W A) : quiet m -> quiet (unawaited m).
Proof.
  intros Hm st. destruct (Hm st) as [evs [Hlog Hevs]].
  exists evs. unfold unawaited.
  destruct (m st) as [[a | e | e] st1]; split; assumption.
Qed.

Lemma quiet_paginate_from {A : Type} (owner repo : string)
    (mapFn : list GhRelease -> list A * bool)
    (pages : list (list GhRelease)) (n : nat) :
  quiet (paginate_from (W:=W) owner repo mapFn pages n).
Proof.
  intros st.
  destruct (paginate_from_log W owner repo mapFn pages n st)
    as [k [_ Hlog]].
  exists (map (EvListReleases owner repo) (seq n k)).
  split; [rewrite Hlog; reflexivity |].
  apply Forall_forall. intros e He.
  apply in_map_iff in He. destruct He as [p [<- _]]. reflexivity.
Qed.

Lemma quiet_getRelease (tool : Tool) : quiet (getRelease E tool).
Proof.
  unfold getRelease.
  apply quiet_bind; [apply quiet_lift | intros targets].
  apply quiet_bind.
  - intros st. unfold paginate. apply quiet_paginate_from.
  - intros releases.
    destruct (find (fun release => Boolean release) releases)
      as [[release |] |]; first [apply quiet_ret | apply quiet_throw].
Qed.

Lemma quiet_handleBadBinaryPermissions (tool : Tool) (dir : string) :
  quiet (handleBadBinaryPermissions E tool dir).
Proof.
  unfold handleBadBinaryPermissions, findBin.
  destruct (negb (proc_platform E =? "win32")); [| apply quiet_ret].
  apply quiet_bind.
  - destruct (Js.otruthy (bin tool)); [apply quiet_ret |].
    apply quiet_bind; [now apply quiet_query | intros; apply quiet_ret].
  - intros file. apply quiet_bind; [now apply quiet_query |].
    intros [|]; [apply quiet_ret |].
    apply quiet_bind; [now apply quiet_command |].
    intros _. now apply quiet_emit.
Qed.

Lemma quiet_extract (n v url artifact : string) :
  quiet (extract E n v url artifact).
Proof.
  unfold extract.
  destruct (Js.endsWith url ".zip").
  { apply quiet_bind; [now apply quiet_command | intros d].
    apply quiet_bind; [now apply quiet_emit | intros _; apply quiet_ret]. }
  destruct (Js.endsWith url ".tar.gz" || Js.endsWith url ".tgz").
  { apply quiet_bind; [now apply quiet_command | intros d].
    apply quiet_bind; [now apply quiet_emit | intros _; apply quiet_ret]. }
  apply quiet_bind; [now apply quiet_emit | intros _].
  apply quiet_bind; [now apply quiet_command | intros made].
  destruct (Js.otruthy made); [| apply quiet_throw].
  apply quiet_bind;
    [apply quiet_unawaited; now apply quiet_command | intros _].
  apply quiet_bind; [now apply quiet_emit | intros _].
  apply quiet_bind; [now apply quiet_emit | intros _; apply quiet_ret].
Qed.

Lemma quiet_cache_extracted (tool : Tool) (v extractDir : string) :
  quiet (cache_extracted E tool v extractDir).
Proof.
  unfold cache_extracted, single_directory.
  apply quiet_bind.
  - apply quiet_bind; [now apply quiet_query | intros files].
    destruct files as [| f [| g files]]; try apply quiet_ret.
    apply quiet_bind; [now apply quiet_query |].
    intros [|]; apply quiet_ret.
  - intros d. apply quiet_bind; [now apply quiet_command | intros dir].
    apply quiet_bind; [apply quiet_handleBadBinaryPermissions |].
    intros _. apply quiet_ret.
Qed.

Lemma quiet_checkOrInstallTool (tool : Tool) :
  quiet (checkOrInstallTool E tool).
Proof.
  unfold checkOrInstallTool.
  apply quiet_bind; [now apply quiet_query | intros found].
  apply quiet_bind; [| intros dir; apply quiet_ret].
  destruct (negb (Js.truthy found)); [| apply quiet_ret].
  unfold install.
  apply quiet_bind; [apply quiet_getRelease | intros release].
  apply quiet_bind; [now apply quiet_command | intros artifact].
  apply quiet_bind; [now apply quiet_emit | intros _].
  apply quiet_bind; [apply quiet_extract | intros extractDir].
  apply quiet_cache_extracted.
Qed.

Lemma quiet_reports {A : Type} (m : M W A) (st : St W) :
  quiet m ->
  exists evs,
    log (snd (m st)) = log st ++ evs /\ filter is_report evs = [].
Proof.
  intros Hm. destruct (Hm st) as [evs [Hlog Hevs]].
  exists evs. split; [exact Hlog |]. clear Hlog.
  induction Hevs as [| e evs' He Hrest IH]; [reflexivity |].
  cbn. rewrite He. exact IH.
Qed.

Lemma setFailed_reports_once (msg : string) (st : St W) :
  reports_once (try_catch (core_setFailed msg)
                          (fun err => core_setFailed (message err))) st.
Proof.
  left. split; [reflexivity |]. left. exists msg.
  erewrite events_of_appended by reflexivity. reflexivity.
Qed.

(** The reports of [setup]: the installer's outcome decides. *)
Lemma setup_reports_once (o n : option string) (versionSpec : string)
    (st : St W) :
  reports_once (try_catch (setup E o n versionSpec)
                          (fun err => core_setFailed (message err))) st.
Proof.
  unfold reports_once, one_outcome, setup.
  destruct o as [o |]; [destruct n as [n |] |].
  2,3: (left; split; [reflexivity |]; left;
        exists "toolName parameter is required";
        erewrite events_of_appended by reflexivity; reflexivity).
  destruct (quiet_reports
              (checkOrInstallTool E
                 {| owner := o; name := n;
                    versionSpec := Some versionSpec; bin := None |})
              st (quiet_checkOrInstallTool _))
    as [evs [Hlog Hnone]].
  assert (Hrun :
            forall r st1,
              checkOrInstallTool E
                {| owner := o; name := n;
                   versionSpec := Some versionSpec; bin := None |} st
              = (r, st1) ->
              try_catch
                (installed <- checkOrInstallTool E
                                {| owner := o; name := n;
                                   versionSpec := Some versionSpec;
                                   bin := None |} ;;
                 core_addPath (dir installed) ;;
                 core_info ("Successfully setup " ++ name (tool installed)
                            ++ " v" ++ version installed))
                (fun err => core_setFailed (message err)) st
              = match r with
                | Ok installed =>
                    (Ok tt,
                     mkSt (world st1)
                          (log st1 ++
                           [EvAddPath (dir installed);
                            EvInfo ("Successfully setup "
                                    ++ name (tool installed)
                                    ++ " v" ++ version installed)]))
                | Throw e =>
                    (Ok tt,
                     mkSt (world st1) (log st1 ++ [EvSetFailed (message e)]))
                | Exit e => (Exit e, st1)
                end).
  { intros r st1 Heq.
    unfold try_catch, bind, core_addPath, core_info, core_setFailed, emit.
    rewrite Heq. destruct r as [installed | e | e]; cbn [world log];
      state_eq. }
  destruct (checkOrInstallTool E _ st) as [r st1] eqn:Heq.
  cbn [snd] in Hlog. specialize (Hrun r st1 eq_refl).
  destruct r as [installed | e | e].
  - left. rewrite Hrun. split; [reflexivity |]. right.
    exists (dir installed). eexists.
    erewrite events_of_appended
      by (rewrite Hrun; cbn [snd log]; rewrite Hlog, <- app_assoc;
          reflexivity).
    rewrite filter_app, Hnone. reflexivity.
  - left. rewrite Hrun. split; [reflexivity |]. left.
    exists (message e).
    erewrite events_of_appended
      by (rewrite Hrun; cbn [snd log]; rewrite Hlog, <- app_assoc;
          reflexivity).
    rewrite filter_app, Hnone. reflexivity.
  - right. exists e. rewrite Hrun. reflexivity.
Qed.

Lemma main_reports_once (i : Inputs) (st : St W) :
  reports_once (main E i) st.
Proof.
  unfold main, main_body.
  destruct (Js.truthy (in_repo i)).
  - destruct (Js.truthy (in_owner i) || Js.truthy (in_name i));
      [apply setFailed_reports_once |].
    destruct (Js.otruthy (Js.at_index (Js.split "@" 2 (in_repo i)) 1)
              && Js.truthy (in_version i));
      [apply setFailed_reports_once | apply setup_reports_once].
  - destruct (negb (Js.truthy (in_owner i)) || negb (Js.truthy (in_name i)));
      [apply setFailed_reports_once | apply setup_reports_once].
Qed.

(** X11. [main] does not throw: an error thrown to it is caught and
    reported.  When it returns, it has reported exactly one outcome:
    either one call to [core.setFailed] and nothing else, or one call
    to [core.addPath] followed by one to [core.info]; a failure is
    never reported together with a path.  (A process ended by a
    rejection that nobody awaits does not return; of such a run
    nothing is said.) *)
Theorem main_reports_one_outcome (i : Inputs) (st : St W) :
  (forall e, fst (main E i st) <> Throw e)
  /\ (fst (main E i st) = Ok tt ->
      (exists msg,
          filter is_report (events_of (main E i) st) = [EvSetFailed msg])
      \/ (exists d msg,
             filter is_report (events_of (main E i) st)
             = [EvAddPath d; EvInfo msg])).
Proof.
  destruct (main_reports_once i st) as [[Hok Hone] | [e He]].
  - split; [intros e; rewrite Hok; discriminate | intros _; exact Hone].
  - split; [intros e'; rewrite He; discriminate |].
    rewrite He. discriminate.
Qed.

End Quiet.

(* ------------------------------------------------------------------ *)
(** ** The two ways to name the tool *)

Lemma append_assoc (a b c : string) :
  ((a ++ b) ++ c)%string = (a ++ b ++ c)%string.
Proof. induction a as [| x a IH]; cbn; [reflexivity | now rewrite IH]. Qed.

Lemma includes_char_cons (x c : ascii) (s : string) :
  Js.includes (String x s) (String c EmptyString)
  = Ascii.eqb c x || Js.includes s (String c EmptyString).
Proof.
  cbn [Js.includes Js.startsWith].
  now rewrite startsWith_empty, andb_true_r.
Qed.

Lemma includes_char_app (a b : string) (c : ascii) :
  Js.includes (a ++ b) (String c EmptyString)
  = Js.includes a (String c EmptyString)
    || Js.includes b (String c EmptyString).
Proof.
  induction a as [| x a IH].
  - reflexivity.
  - cbn [append]. rewrite !includes_char_cons, IH. now rewrite orb_assoc.
Qed.

(** A string without the separator is its own single piece. *)
Lemma split_all_no_sep (sep : ascii) (r : string) :
  Js.includes r (String sep EmptyString) = false ->
  Js.split_all sep r = [r].
Proof.
  induction r as [| a r IH]; intros Hno; [reflexivity |].
  rewrite includes_char_cons in Hno.
  apply orb_false_iff in Hno. destruct Hno as [Ha Hr].
  cbn [Js.split_all]. rewrite Ascii.eqb_sym, Ha, (IH Hr). reflexivity.
Qed.

(** The first separator ends the first piece. *)
Lemma split_all_at_sep (sep : ascii) (r s : string) :
  Js.includes r (String sep EmptyString) = false ->
  Js.split_all sep (r ++ String sep s) = r :: Js.split_all sep s.
Proof.
  induction r as [| a r IH]; intros Hno.
  - cbn [append Js.split_all]. now rewrite Ascii.eqb_refl.
  - rewrite includes_char_cons in Hno.
    apply orb_false_iff in Hno. destruct Hno as [Ha Hr].
    cbn [append Js.split_all]. rewrite Ascii.eqb_sym, Ha, (IH Hr).
    reflexivity.
Qed.

Section Naming.

Variable W : Type.
Variable E : Services W.

(** With [owner] and [name], the body of [main] is the installation
    of that tool, the [version] input being the constraint. *)
Lemma main_body_separate (o n token v : string) :
  Js.truthy o = true ->
  Js.truthy n = true ->
  main_body E (mkInputs EmptyString o n token v)
  = setup E (Some o) (Some n) v.
Proof.
  intros Ho Hn. unfold main_body. cbn [in_repo in_owner in_name in_version].
  cbn [Js.truthy]. rewrite Ho, Hn. reflexivity.
Qed.

(** With [repo: owner/name@version], the same. *)
Lemma main_body_combined (o n token v : string) :
  Js.truthy o = true ->
  Js.includes o "/" = false -> Js.includes o "@" = false ->
  Js.includes n "/" = false -> Js.includes n "@" = false ->
  Js.includes v "@" = false ->
  main_body E (mkInputs (o ++ "/" ++ n ++ "@" ++ v)
                        EmptyString EmptyString token EmptyString)
  = setup E (Some o) (Some n) v.
Proof.
  intros Ho Hos Hoa Hns Hna Hva.
  assert (Hrepo : Js.includes (o ++ "/" ++ n) "@" = false).
  { rewrite includes_char_app, Hoa.
    change ("/" ++ n)%string with (String "/" n).
    rewrite includes_char_cons, Hna. reflexivity. }
  assert (Hat : Js.split "@" 2 (o ++ "/" ++ n ++ "@" ++ v)
                = [(o ++ "/" ++ n)%string; v]).
  { unfold Js.split.
    replace (o ++ "/" ++ n ++ "@" ++ v)%string
      with ((o ++ "/" ++ n) ++ String "@" v)%string
      by (rewrite !append_assoc; reflexivity).
    rewrite (split_all_at_sep "@" _ v Hrepo).
    rewrite (split_all_no_sep "@" v Hva). reflexivity. }
  assert (Hslash : Js.split "/" 2 (o ++ "/" ++ n) = [o; n]).
  { unfold Js.split.
    change (o ++ "/" ++ n)%string with (o ++ String "/" n)%string.
    rewrite (split_all_at_sep "/" o n Hos).
    rewrite (split_all_no_sep "/" n Hns). reflexivity. }
  unfold main_body. cbn [in_repo in_owner in_name in_version].
  assert (Htruthy : Js.truthy (o ++ "/" ++ n ++ "@" ++ v) = true)
    by (destruct o; [discriminate Ho | reflexivity]).
  rewrite Htruthy, Hat. cbn [Js.truthy orb].
  cbn [Js.at_index nth_error Js.otruthy Js.show].
  rewrite andb_false_r.
  assert (Hspec : Js.or_else (Some v) EmptyString = v)
    by (destruct v; reflexivity).
  rewrite Hspec, Hslash. reflexivity.
Qed.

(** With [repo: owner/name] and the [version] input, the same. *)
Lemma main_body_combined_plain (o n token v : string) :
  Js.truthy o = true ->
  Js.includes o "/" = false -> Js.includes o "@" = false ->
  Js.includes n "/" = false -> Js.includes n "@" = false ->
  main_body E (mkInputs (o ++ "/" ++ n) EmptyString EmptyString token v)
  = setup E (Some o) (Some n) v.
Proof.
  intros Ho Hos Hoa Hns Hna.
  assert (Hrepo : Js.includes (o ++ "/" ++ n) "@" = false).
  { rewrite includes_char_app, Hoa.
    change ("/" ++ n)%string with (String "/" n).
    rewrite includes_char_cons, Hna. reflexivity. }
  assert (Hat : Js.split "@" 2 (o ++ "/" ++ n) = [(o ++ "/" ++ n)%string]).
  { unfold Js.split. rewrite (split_all_no_sep "@" _ Hrepo). reflexivity. }
  assert (Hslash : Js.split "/" 2 (o ++ "/" ++ n) = [o; n]).
  { unfold Js.split.
    change (o ++ "/" ++ n)%string with (o ++ String "/" n)%string.
    rewrite (split_all_at_sep "/" o n Hos).
    rewrite (split_all_no_sep "/" n Hns). reflexivity. }
  unfold main_body. cbn [in_repo in_owner in_name in_version].
  assert (Htruthy : Js.truthy (o ++ "/" ++ n) = true)
    by (destruct o; [discriminate Ho | reflexivity]).
  rewrite Htruthy, Hat. cbn [Js.truthy orb].
  cbn [Js.at_index nth_error Js.otruthy Js.show andb Js.or_else].
  rewrite Hslash. reflexivity.
Qed.

(** X12. The combined input and the separate inputs are two
    spellings of the same run.  For an owner and a name without [/]
    and [@] and a version without [@] (empty or not), [main] does the
    same with [repo: owner/name@version], with [repo: owner/name]
    together with [version], and with [owner], [name] and
    [version]. *)
Theorem combined_and_separate_inputs_agree (o n token v : string)
    (st : St W) :
  Js.truthy o = true ->
  Js.truthy n = true ->
  Js.includes o "/" = false -> Js.includes o "@" = false ->
  Js.includes n "/" = false -> Js.includes n "@" = false ->
  Js.includes v "@" = false ->
  main E (mkInputs (o ++ "/" ++ n ++ "@" ++ v)
                   EmptyString EmptyString token EmptyString) st
  = main E (mkInputs EmptyString o n token v) st
  /\ main E (mkInputs (o ++ "/" ++ n) EmptyString EmptyString token v) st
     = main E (mkInputs EmptyString o n token v) st.
Proof.
  intros Ho Hn Hos Hoa Hns Hna Hva. unfold main.
  rewrite (main_body_separate o n token v Ho Hn).
  rewrite (main_body_combined o n token v Ho Hos Hoa Hns Hna Hva).
  rewrite (main_body_combined_plain o n token v Ho Hos Hoa Hns Hna).
  split; reflexivity.
Qed.

(** X13. With [owner] and [name] given and no [repo], [main] installs
    the tool [owner/name] with the [version] input as its constraint
    (the empty string when it is not set) and no binary name; on
    success it adds the installed directory to the path and announces
    the name and the version, on failure it fails the action with the
    error's message.  (When the installer ends with the process,
    so does [main].) *)
Theorem main_installs_and_reports (o n token v : string) (st : St W) :
  Js.truthy o = true ->
  Js.truthy n = true ->
  main E (mkInputs EmptyString o n token v) st
  = match checkOrInstallTool E
            {| owner := o; name := n; versionSpec := Some v; bin := None |}
            st with
    | (Ok installed, st1) =>
        (Ok tt,
         mkSt (world st1)
              (log st1 ++
               [EvAddPath (dir installed);
                EvInfo ("Successfully setup " ++ name (tool installed)
                        ++ " v" ++ version installed)]))
    | (Throw e, st1) =>
        (Ok tt, mkSt (world st1) (log st1 ++ [EvSetFailed (message e)]))
    | (Exit e, st1) => (Exit e, st1)
    end.
Proof.
  intros Ho Hn. unfold main.
  rewrite (main_body_separate o n token v Ho Hn).
  unfold try_catch, setup, bind, core_addPath, core_info, core_setFailed, emit.
  destruct (checkOrInstallTool E _ st) as [[installed | e | e] st1];
    cbn [world log]; state_eq.
Qed.

(** X14. Without [repo], both [owner] and [name] are needed: when one
    of them is missing [main] fails the action with the message that
    says so, and does nothing else. *)
Theorem main_needs_owner_and_name (i : Inputs) (st : St W) :
  in_repo i = EmptyString ->
  in_owner i = EmptyString \/ in_name i = EmptyString ->
  main E i st
  = (Ok tt, mkSt (world st) (log st ++ [EvSetFailed msg_owner_and_name])).
Proof.
  intros Hrepo Hmissing. unfold main, main_body. rewrite Hrepo.
  cbn [Js.truthy].
  assert (Hguard : negb (Js.truthy (in_owner i))
                   || negb (Js.truthy (in_name i)) = true).
  { destruct Hmissing as [H | H]; rewrite H; cbn;
      [reflexivity | apply orb_true_r]. }
  rewrite Hguard. reflexivity.
Qed.

End Naming.

(* ------------------------------------------------------------------ *)
(** ** The table of targets *)

Lemma getTargets_ok_supported (arch platform : string) (ts : list string) :
  getTargets arch platform = Ok ts -> In (arch, platform) supported_pairs.
Proof.
  intros Hok.
  assert (Hdec : forall x y : string * string, {x = y} + {x <> y})
    by (decide equality; apply string_dec).
  destruct (in_dec Hdec (arch, platform) supported_pairs) as [Hin | Hout];
    [exact Hin |].
  rewrite (getTargets_unsupported arch platform Hout) in Hok.
  discriminate Hok.
Qed.

(** X15. The accepted targets tell the platforms apart: a target
    accepted on one (architecture, OS) pair never occurs inside a target
    accepted on another pair, and on the same pair only inside itself. *)
Theorem targets_tell_platforms_apart (a1 p1 a2 p2 : string)
    (ts1 ts2 : list string) (t1 t2 : string) :
  getTargets a1 p1 = Ok ts1 ->
  getTargets a2 p2 = Ok ts2 ->
  In t1 ts1 ->
  In t2 ts2 ->
  Js.includes t1 t2 = true ->
  t1 = t2 /\ a1 = a2 /\ p1 = p2.
Proof.
  intros H1 H2 Ht1 Ht2 Hinc.
  pose proof (getTargets_ok_supported _ _ _ H1) as Hs1.
  pose proof (getTargets_ok_supported _ _ _ H2) as Hs2.
  unfold supported_pairs in Hs1, Hs2.
  repeat (destruct Hs1 as [Hs1 | Hs1];
          [inversion Hs1; subst a1 p1; clear Hs1 |]); try contradiction;
    cbn in H1; inversion H1; subst ts1; clear H1;
    (repeat (destruct Hs2 as [Hs2 | Hs2];
             [inversion Hs2; subst a2 p2; clear Hs2 |]); try contradiction;
     cbn in H2; inversion H2; subst ts2; clear H2;
     cbn in Ht1, Ht2;
     repeat (destruct Ht1 as [Ht1 | Ht1]; [subst t1 |]); try contradiction;
     repeat (destruct Ht2 as [Ht2 | Ht2]; [subst t2 |]); try contradiction;
     first [ vm_compute in Hinc; discriminate Hinc
           | repeat split; reflexivity ]).
Qed.

(* ------------------------------------------------------------------ *)
(** ** These properties at work in the small world *)

Lemma getRelease_sound_witness :
  exists targets rel asset,
    getTargets "x64" "linux" = Ok targets
    /\ In rel (concat Sim.pages)
    /\ In asset (assets rel)
    /\ Spec.matches_target targets asset
    /\ {| rel_version := "1.1.4";
          downloadUrl := browser_download_url Sim.gnu_asset |}
       = {| rel_version := Js.strip_v (tag_name rel);
            downloadUrl := browser_download_url asset |}
    /\ (true = true -> Sim.satisfies "1.1.4" "1.1" = true).
Proof.
  apply (getRelease_sound Sim.World Sim.linux Sim.just_1_1
           (mkSt Sim.fresh [])
           (mkSt Sim.fresh [EvListReleases "casey" "just" 1;
                            EvListReleases "casey" "just" 2])
           {| rel_version := "1.1.4";
              downloadUrl := browser_download_url Sim.gnu_asset |}).
  vm_compute. reflexivity.
Defined.

Lemma getRelease_unsupported_platform_witness :
  getRelease Sim2.arm_windows Sim.just (mkSt Sim.fresh [])
  = (Throw (UnsupportedPlatform "arm64" "win32"), mkSt Sim.fresh []).
Proof.
  apply (getRelease_unsupported_platform Sim.World Sim2.arm_windows
           Sim.just (mkSt Sim.fresh [])).
  cbn. intros H.
  repeat (destruct H as [H | H]; [discriminate H |]).
  exact H.
Defined.

Lemma install_stops_without_release_witness :
  checkOrInstallTool Sim.linux Sim.just (mkSt Sim.barren [])
  = (Throw (NoMatchingRelease "just" None),
     mkSt Sim.barren [EvFind "just" "*";
                      EvListReleases "casey" "just" 1;
                      EvListReleases "casey" "just" 2])
  /\ Sim.barren = Sim.barren
  /\ exists k,
       [EvFind "just" "*";
        EvListReleases "casey" "just" 1; EvListReleases "casey" "just" 2]
       = [] ++ EvFind "just" "*" :: page_requests "casey" "just" k.
Proof.
  apply (install_stops_without_release Sim.World Sim.linux Sim.just
           (mkSt Sim.barren [])
           (mkSt Sim.barren [EvFind "just" "*";
                             EvListReleases "casey" "just" 1;
                             EvListReleases "casey" "just" 2])
           EmptyString (NoMatchingRelease "just" None));
    vm_compute; reflexivity.
Defined.

Lemma install_stops_without_download_witness :
  checkOrInstallTool Sim2.offline Sim.just (mkSt Sim.fresh [])
  = (Throw (Error ("connect ETIMEDOUT "
                   ++ browser_download_url Sim.gnu_asset)),
     mkSt Sim.fresh [EvFind "just" "*";
                     EvListReleases "casey" "just" 1;
                     EvListReleases "casey" "just" 2;
                     EvDownload (browser_download_url Sim.gnu_asset)]).
Proof.
  apply (install_stops_without_download Sim.World Sim2.offline Sim.just
           (mkSt Sim.fresh [])
           (mkSt Sim.fresh [EvFind "just" "*";
                            EvListReleases "casey" "just" 1;
                            EvListReleases "casey" "just" 2])
           EmptyString
           {| rel_version := "1.2.0";
              downloadUrl := browser_download_url Sim.gnu_asset |}
           (Error ("connect ETIMEDOUT "
                   ++ browser_download_url Sim.gnu_asset))
           Sim.fresh);
    vm_compute; reflexivity.
Defined.

Lemma extract_by_suffix_witness :
  fst (extract Sim.linux "just" "1.2.0" "https://example.org/just-1.2.0.zip"
         "/tmp/download" (mkSt Sim2.downloaded []))
  = Ok "/tmp/extract"
  /\ fst (extract Sim.linux "just" "1.2.0" "https://example.org/just-1.2.0.tgz"
            "/tmp/missing" (mkSt Sim2.downloaded []))
     = Throw (Sim.ENOENT "/tmp/missing").
Proof.
  split.
  - rewrite (proj1 (extract_by_suffix Sim.World Sim.linux "just" "1.2.0"
                      "https://example.org/just-1.2.0.zip" "/tmp/download"
                      (mkSt Sim2.downloaded [])) eq_refl).
    vm_compute. reflexivity.
  - rewrite (proj2 (extract_by_suffix Sim.World Sim.linux "just" "1.2.0"
                      "https://example.org/just-1.2.0.tgz" "/tmp/missing"
                      (mkSt Sim2.downloaded [])) eq_refl eq_refl).
    vm_compute. reflexivity.
Defined.

Lemma naked_binary_staged_witness :
  fst (extract Sim.linux "just" "1.2.0"
         (browser_download_url (Sim.naked_asset "1.2.0")) "/tmp/download"
         (mkSt Sim2.downloaded []))
  = Ok staging_dir
  /\ Sim.lookup "/tmp/extractions-setup-crate-binaries/just"
       (Sim.files
          (world (snd (extract Sim.linux "just" "1.2.0"
                         (browser_download_url (Sim.naked_asset "1.2.0"))
                         "/tmp/download" (mkSt Sim2.downloaded [])))))
     = Some (Sim.File false)
  /\ filter is_fs_mutation
       (events_of (extract Sim.linux "just" "1.2.0"
                     (browser_download_url (Sim.naked_asset "1.2.0"))
                     "/tmp/download") (mkSt Sim2.downloaded []))
     = [EvMkdir staging_dir;
        EvRename "/tmp/download" "/tmp/extractions-setup-crate-binaries/just"].
Proof.
  destruct (naked_binary_staged Sim.World Sim.linux "just" "1.2.0"
              (browser_download_url (Sim.naked_asset "1.2.0")) "/tmp/download"
              (mkSt Sim2.downloaded []) staging_dir
              (snd (Sim.mkdir staging_dir Sim2.downloaded))
              (snd (Sim.rename "/tmp/download"
                      "/tmp/extractions-setup-crate-binaries/just"
                      (snd (Sim.mkdir staging_dir Sim2.downloaded)))))
    as [Hdir [Hworld Hcalls]]; try (vm_compute; reflexivity).
  split; [exact Hdir |]. split; [| exact Hcalls].
  rewrite Hworld. vm_compute. reflexivity.
Defined.

Lemma installed_version_from_path_witness :
  "1.2.0" = Sim.basename (Sim.dirname "/cache/just/1.2.0/x64")
  /\ Sim.just = Sim.just.
Proof.
  apply (installed_version_from_path Sim.World Sim.linux Sim.just
           (mkSt Sim.warm []) (mkSt Sim.warm [EvFind "just" "*"])
           {| version := "1.2.0"; dir := "/cache/just/1.2.0/x64";
              tool := Sim.just |}).
  vm_compute. reflexivity.
Defined.

Lemma nothing_cached_when_listing_fails_witness :
  fst (cache_extracted Sim.linux Sim.just "1.2.0" "/tmp/missing"
         (mkSt Sim.fresh []))
  = Throw (Sim.ENOENT "/tmp/missing")
  /\ world (snd (cache_extracted Sim.linux Sim.just "1.2.0" "/tmp/missing"
                   (mkSt Sim.fresh [])))
     = Sim.fresh
  /\ cacheDir_calls
       (events_of (cache_extracted Sim.linux Sim.just "1.2.0" "/tmp/missing")
                  (mkSt Sim.fresh []))
     = [].
Proof.
  apply (nothing_cached_when_listing_fails Sim.World Sim.linux Sim.just
           "1.2.0" "/tmp/missing" (mkSt Sim.fresh [])
           (Sim.ENOENT "/tmp/missing")).
  left. vm_compute. reflexivity.
Defined.

Lemma combined_and_separate_inputs_agree_witness :
  main Sim.linux (mkInputs "casey/just@1.1" EmptyString EmptyString
                           EmptyString EmptyString) (mkSt Sim.fresh [])
  = main Sim.linux (mkInputs EmptyString "casey" "just" EmptyString "1.1")
         (mkSt Sim.fresh [])
  /\ main Sim.linux (mkInputs "casey/just" EmptyString EmptyString
                              EmptyString "1.1") (mkSt Sim.fresh [])
     = main Sim.linux (mkInputs EmptyString "casey" "just" EmptyString "1.1")
            (mkSt Sim.fresh []).
Proof.
  apply (combined_and_separate_inputs_agree Sim.World Sim.linux
           "casey" "just" EmptyString "1.1" (mkSt Sim.fresh []));
    vm_compute; reflexivity.
Defined.

Lemma main_installs_and_reports_witness :
  log (snd (main Sim.linux
              (mkInputs EmptyString "casey" "just" EmptyString EmptyString)
              (mkSt Sim.warm [])))
  = [EvFind "just" "*"; EvAddPath "/cache/just/1.2.0/x64";
     EvInfo "Successfully setup just v1.2.0"].
Proof.
  rewrite (main_installs_and_reports Sim.World Sim.linux
             "casey" "just" EmptyString EmptyString (mkSt Sim.warm [])
             eq_refl eq_refl).
  vm_compute. reflexivity.
Defined.

Lemma main_needs_owner_and_name_witness :
  main Sim.linux
       (mkInputs EmptyString "casey" EmptyString EmptyString "1.1")
       (mkSt Sim.fresh [])
  = (Ok tt, mkSt Sim.fresh [EvSetFailed msg_owner_and_name]).
Proof.
  apply (main_needs_owner_and_name Sim.World Sim.linux
           (mkInputs EmptyString "casey" EmptyString EmptyString "1.1")
           (mkSt Sim.fresh [])).
  - reflexivity.
  - right. reflexivity.
Defined.

Lemma targets_tell_platforms_apart_witness :
  "x86_64-unknown-linux-gnu" = "x86_64-unknown-linux-gnu"
  /\ "x64" = "x64" /\ "linux" = "linux".
Proof.
  apply (targets_tell_platforms_apart "x64" "linux" "x64" "linux"
           Sim.linux_targets Sim.linux_targets
           "x86_64-unknown-linux-gnu" "x86_64-unknown-linux-gnu").
  - reflexivity.
  - reflexivity.
  - cbn. tauto.
  - cbn. tauto.
  - vm_compute. reflexivity.
Defined.

(** [findBin] on a listing with two spellings of the name: the first
    one is taken. *)
Example findBin_first_spelling :
  findBin_loop Sim.linux "just" ["README.md"; "Just"; "JUST"; "just"]
  = "Just".
Proof. reflexivity. Qed.

(* ------------------------------------------------------------------ *)
(** ** A successful installation, end to end *)

Section EndToEnd.

Variable W : Type.
Variable E : Services W.

(** [single_directory] only reads, and answers with the extraction
    directory or with one of its entries. *)
Lemma single_directory_reads (x : string) (st : St W) :
  exists pre,
    snd (single_directory E x st) = mkSt (world st) (log st ++ pre)
    /\ forall src, fst (single_directory E x st) = Ok src ->
                   src = x \/ exists f, src = path_join E x f.
Proof.
  destruct st as [w0 l0]. unfold single_directory. run_m.
  destruct (fs_readdir E w0 x) as [files | e | e].
  - destruct files as [| f [| g files]].
    + exists [EvReaddir x]. split; [reflexivity |].
      intros src H. inversion H. now left.
    + run_m. destruct (fs_lstat_isDirectory E w0 (path_join E x f))
        as [[|] | e | e].
      * exists [EvReaddir x; EvLstat (path_join E x f)].
        split; [f_equal; log_shape |]. intros src H. inversion H.
        right. now exists f.
      * exists [EvReaddir x; EvLstat (path_join E x f)].
        split; [f_equal; log_shape |]. intros src H. inversion H. now left.
      * exists [EvReaddir x; EvLstat (path_join E x f)].
        split; [f_equal; log_shape |]. intros src H. discriminate H.
      * exists [EvReaddir x; EvLstat (path_join E x f)].
        split; [f_equal; log_shape |]. intros src H. discriminate H.
    + exists [EvReaddir x]. split; [reflexivity |].
      intros src H. inversion H. now left.
  - exists [EvReaddir x]. split; [reflexivity |].
    intros src H. discriminate H.
  - exists [EvReaddir x]. split; [reflexivity |].
    intros src H. discriminate H.
Qed.

(** A successful [cache_extracted] returns what [tc.cacheDir]
    returned. *)
Lemma cache_extracted_ok (tool : Tool) (v x d : string) (st st1 : St W) :
  cache_extracted E tool v x st = (Ok d, st1) ->
  exists src w1 pre post,
    tc_cacheDir E src (name tool) v (world st) = (Ok d, w1)
    /\ (src = x \/ exists f, src = path_join E x f)
    /\ log st1
       = log st ++ pre ++ EvCacheDir src (name tool) v :: post.
Proof.
  unfold cache_extracted. unfold bind at 1.
  destruct (single_directory_reads x st) as [pre [Hst Hsrc]].
  destruct (single_directory E x st) as [[src | e | e] s1]; try discriminate.
  cbn [fst snd] in *. subst s1. specialize (Hsrc src eq_refl).
  unfold bind at 1, tc_cacheDir_, command. cbn [world log].
  destruct (tc_cacheDir E src (name tool) v (world st))
    as [[d0 | e | e] w1] eqn:Hcache; try discriminate.
  unfold bind at 1.
  destruct (handleBadBinaryPermissions_log W E tool d0
              (mkSt w1 ((log st ++ pre)
                        ++ [EvCacheDir src (name tool) v])))
    as [post [Hlog _]].
  destruct (handleBadBinaryPermissions E tool d0 _) as [[[] | e | e] s2];
    try discriminate.
  unfold ret. intros H. inversion H; subst d0 s2; clear H.
  exists src, w1, pre, post.
  split; [exact Hcache |]. split; [exact Hsrc |].
  cbn [snd log] in Hlog. rewrite Hlog. log_shape.
Qed.

Lemma quiet_log {A : Type} (m : M W A) (st : St W) :
  quiet m -> exists evs, log (snd (m st)) = log st ++ evs.
Proof.
  intros Hm. destruct (Hm st) as [evs [Hlog _]]. now exists evs.
Qed.

(** X16. A successful installation on a cache miss has located a
    release, downloaded the URL of that release's candidate, and
    stored a directory in the cache under the tool's name and the
    candidate's version; the directory it reports is the one
    [tc.cacheDir] returned for it. *)
Theorem miss_installs_located_release (tool : Tool) (st st1 : St W)
    (found : string) (installed : InstalledTool) :
  let spec := Js.or_else (versionSpec tool) "*" in
  tc_find E (world st) (name tool) spec = Ok found ->
  Js.truthy found = false ->
  checkOrInstallTool E tool st = (Ok installed, st1) ->
  exists r src w w1,
    fst (getRelease E tool
           (mkSt (world st) (log st ++ [EvFind (name tool) spec])))
    = Ok r
    /\ tc_cacheDir E src (name tool) (rel_version r) w
       = (Ok (dir installed), w1)
    /\ In (EvDownload (downloadUrl r)) (log st1)
    /\ In (EvCacheDir src (name tool) (rel_version r)) (log st1).
Proof.
  intros spec Hfind Hfalsy Hrun.
  rewrite (checkOrInstallTool_miss W E tool st found Hfind Hfalsy) in Hrun.
  fold spec in Hrun. unfold bind at 1 in Hrun.
  destruct (install E tool _) as [[d | e | e] sA] eqn:Hinst; try discriminate.
  unfold ret in Hrun. inversion Hrun; subst installed sA; clear Hrun.
  cbn [dir].
  unfold install in Hinst. unfold bind at 1 in Hinst.
  destruct (getRelease E tool _) as [[r | e | e] s2]; try discriminate.
  unfold bind at 1, tc_downloadTool_, command in Hinst.
  destruct (tc_downloadTool E (downloadUrl r) (world s2))
    as [[artifact | e | e] w3]; try discriminate.
  unfold bind at 1, core_debug, emit in Hinst. cbn [world log] in Hinst.
  unfold bind at 1 in Hinst.
  destruct (quiet_log
              (extract E (name tool) (rel_version r) (downloadUrl r)
                       artifact)
              (mkSt w3 ((log s2 ++ [EvDownload (downloadUrl r)])
                        ++ [EvDebug ("Successfully downloaded "
                                     ++ name tool ++ " v"
                                     ++ rel_version r)]))
              (quiet_extract W E _ _ _ _))
    as [evs Hex].
  destruct (extract E (name tool) (rel_version r) (downloadUrl r) artifact _)
    as [[x | e | e] s4]; try discriminate.
  cbn [snd log] in Hex.
  destruct (cache_extracted_ok tool (rel_version r) x d s4 st1 Hinst)
    as [src [w1 [pre [post [Hcache [_ Hlog]]]]]].
  exists r, src, (world s4), w1.
  split; [reflexivity |]. split; [exact Hcache |].
  rewrite Hlog, Hex. split.
  - apply in_or_app. left. apply in_or_app. left.
    apply in_or_app. left. apply in_or_app. right. now left.
  - apply in_or_app. right. apply in_or_app. right. now left.
Qed.

(** X17. An explicit binary name spares the listing of the cache
    directory; without one the directory is listed, and when the
    listing fails its error is the error of the repair: the binary is
    neither checked nor changed. *)
Theorem permission_repair_listing (tool : Tool) (dir : string)
    (st : St W) :
  proc_platform E <> "win32" ->
  (Js.otruthy (bin tool) = true ->
   readdir_calls (events_of (handleBadBinaryPermissions E tool dir) st)
   = [])
  /\ (Js.otruthy (bin tool) = false ->
      forall e, fs_readdir E (world st) dir = Throw e ->
                handleBadBinaryPermissions E tool dir st
                = (Throw e, mkSt (world st) (log st ++ [EvReaddir dir]))).
Proof.
  intros Hplat. apply String.eqb_neq in Hplat.
  destruct st as [w0 l0]. cbn [world log].
  unfold handleBadBinaryPermissions, findBin. rewrite Hplat. cbn [negb].
  split.
  - intros Hbin. rewrite Hbin.
    assert (Hlog : exists evs,
               log (snd ((file <- ret (Js.show (bin tool)) ;;
                          executable <- fs_access_x_ E (path_join E dir file) ;;
                          if executable then ret tt
                          else fs_chmod_ E (path_join E dir file) "755" ;;
                               core_debug
                                 ("Fixed file permissions (-> 0o755) for "
                                  ++ path_join E dir file))
                           (mkSt w0 l0)))
               = l0 ++ evs
               /\ readdir_calls evs = []).
    { run_m.
      destruct (fs_access_x E w0 (path_join E dir (Js.show (bin tool)))).
      - eexists. split; [reflexivity | reflexivity].
      - run_m.
        destruct (fs_chmod E (path_join E dir (Js.show (bin tool))) "755" w0)
          as [[[] | e | e] w1]; eexists; (split; [log_shape | reflexivity]). }
    destruct Hlog as [evs [Hlog Hnone]].
    erewrite events_of_appended by (cbn [log]; exact Hlog).
    exact Hnone.
  - intros Hbin e Hrd. rewrite Hbin. run_m. rewrite Hrd. reflexivity.
Qed.

End EndToEnd.

Lemma miss_installs_located_release_witness :
  exists r src w w1,
    fst (getRelease Sim.linux Sim.just
           (mkSt Sim.fresh ([] ++ [EvFind "just" "*"])))
    = Ok r
    /\ Sim.cache_dir src "just" (rel_version r) w
       = (Ok "/cache/just/1.2.0/x64", w1)
    /\ In (EvDownload (downloadUrl r))
          (log (snd (run (checkOrInstallTool Sim.linux Sim.just) Sim.fresh)))
    /\ In (EvCacheDir src "just" (rel_version r))
          (log (snd (run (checkOrInstallTool Sim.linux Sim.just) Sim.fresh))).
Proof.
  apply (miss_installs_located_release Sim.World Sim.linux Sim.just
           (mkSt Sim.fresh [])
           (snd (run (checkOrInstallTool Sim.linux Sim.just) Sim.fresh))
           EmptyString
           {| version := "1.2.0"; dir := "/cache/just/1.2.0/x64";
              tool := Sim.just |});
    vm_compute; reflexivity.
Defined.

Lemma permission_repair_listing_witness :
  (true = true ->
   readdir_calls
     (events_of (handleBadBinaryPermissions Sim.linux
                   (mkTool "casey" "just" None (Some "Just"))
                   "/cache/just/1.2.0/x64")
                (mkSt Sim.not_executable []))
   = [])
  /\ (true = false ->
      forall e,
        Sim.readdir Sim.not_executable "/cache/just/1.2.0/x64" = Throw e ->
        handleBadBinaryPermissions Sim.linux
          (mkTool "casey" "just" None (Some "Just"))
          "/cache/just/1.2.0/x64" (mkSt Sim.not_executable [])
        = (Throw e,
           mkSt Sim.not_executable ([] ++ [EvReaddir "/cache/just/1.2.0/x64"]))).
Proof.
  apply (permission_repair_listing Sim.World Sim.linux
           (mkTool "casey" "just" None (Some "Just"))
           "/cache/just/1.2.0/x64" (mkSt Sim.not_executable [])).
  cbn. discriminate.
Defined.

(* ------------------------------------------------------------------ *)
(** ** The installer on a cache miss: what is cached, and the binary *)

Section OnMiss.

Variable W : Type.
Variable E : Services W.

(** *** Events of one kind *)

Lemma emits_ret {A : Type} (P : Event -> bool) (a : A) :
  emits P (ret (W:=W) a).
Proof.
  intros st. exists []. split; [symmetry; apply app_nil_r | constructor].
Qed.

Lemma emits_throw {A : Type} (P : Event -> bool) (e : exn) :
  emits P (throw (W:=W) (A:=A) e).
Proof.
  intros st. exists []. split; [symmetry; apply app_nil_r | constructor].
Qed.

Lemma emits_emit (P : Event -> bool) (e : Event) :
  P e = true -> emits P (emit (W:=W) e).
Proof.
  intros He st. exists [e]. split; [reflexivity | now repeat constructor].
Qed.

Lemma emits_command {A : Type} (P : Event -> bool) (e : Event)
    (f : W -> result A * W) :
  P e = true -> emits P (command e f).
Proof.
  intros He st. exists [e]. unfold command.
  destruct (f (world st)) as [r w].
  split; [reflexivity | now repeat constructor].
Qed.

Lemma emits_bind {A B : Type} (P : Event -> bool) (m : M W A)
    (k : A -> M W B) :
  emits P m -> (forall a, emits P (k a)) -> emits P (bind m k).
Proof.
  intros Hm Hk st. unfold bind.
  destruct (Hm st) as [evs [Hlog Hevs]].
  destruct (m st) as [[a | e | e] st1]; cbn [snd] in *.
  - destruct (Hk a st1) as [evs' [Hlog' Hevs']].
    exists (evs ++ evs'). split.
    + rewrite Hlog', Hlog. now rewrite app_assoc.
    + apply Forall_app. split; assumption.
  - exists evs. split; assumption.
  - exists evs. split; assumption.
Qed.

Lemma emits_unawaited {A : Type} (P : Event -> bool) (m : M W A) :
  emits P m -> emits P (unawaited m).
Proof.
  intros Hm st. destruct (Hm st) as [evs [Hlog Hevs]].
  exists evs. unfold unawaited.
  destruct (m st) as [[a | e | e] st1]; split; assumption.
Qed.

Lemma extract_emits (n v url artifact : string) :
  emits is_before_cache (extract E n v url artifact).
Proof.
  unfold extract.
  destruct (Js.endsWith url ".zip").
  { apply emits_bind; [now apply emits_command | intros d].
    apply emits_bind; [now apply emits_emit | intros _; apply emits_ret]. }
  destruct (Js.endsWith url ".tar.gz" || Js.endsWith url ".tgz").
  { apply emits_bind; [now apply emits_command | intros d].
    apply emits_bind; [now apply emits_emit | intros _; apply emits_ret]. }
  apply emits_bind; [now apply emits_emit | intros _].
  apply emits_bind; [now apply emits_command | intros made].
  destruct (Js.otruthy made); [| apply emits_throw].
  apply emits_bind;
    [apply emits_unawaited; now apply emits_command | intros _].
  apply emits_bind; [now apply emits_emit | intros _].
  apply emits_bind; [now apply emits_emit | intros _; apply emits_ret].
Qed.

Lemma before_cache_no_cacheDir (evs : list Event) :
  Forall (fun e => is_before_cache e = true) evs ->
  cacheDir_calls evs = [].
Proof.
  induction 1 as [| e evs He _ IH]; [reflexivity |].
  destruct e; try discriminate He; exact IH.
Qed.

Lemma before_cache_no_permission (evs : list Event) :
  Forall (fun e => is_before_cache e = true) evs ->
  filter is_permission_call evs = [].
Proof.
  induction 1 as [| e evs He _ IH]; [reflexivity |].
  destruct e; try discriminate He; exact IH.
Qed.

(** *** Up to the extraction *)

(** From the extraction on, the installer is [cache_extracted]; what
    it has called so far comes before the cache. *)
Lemma extracted_on_miss_run (tool : Tool) (st : St W) (r : Release)
    (extractDir : string) (st4 : St W) :
  extracted_on_miss E tool st r extractDir st4 ->
  checkOrInstallTool E tool st
  = (dir <- cache_extracted E tool (rel_version r) extractDir ;;
     ret {| version := path_basename E (path_dirname E dir);
            dir := dir; tool := tool |}) st4
  /\ exists pre,
       log st4 = log st ++ pre
       /\ Forall (fun e => is_before_cache e = true) pre.
Proof.
  intros [found [st2 [artifact [w3 [Hfind [Hfalsy [Hget [Hdl Hex]]]]]]]].
  split.
  - rewrite (checkOrInstallTool_miss W E tool st found Hfind Hfalsy).
    unfold bind at 1. unfold install. unfold bind at 1. rewrite Hget.
    unfold bind at 1, tc_downloadTool_, command. rewrite Hdl.
    unfold bind at 1, core_debug, emit. cbn [world log].
    unfold bind at 1. rewrite <- app_assoc. cbn [app]. rewrite Hex.
    reflexivity.
  - destruct (getRelease_log W E tool
                (mkSt (world st)
                      (log st ++ [EvFind (name tool)
                                    (Js.or_else (versionSpec tool) "*")])))
      as [k [_ Hlog2]].
    rewrite Hget in Hlog2. cbn [snd world log] in Hlog2.
    destruct (extract_emits (name tool) (rel_version r) (downloadUrl r)
                artifact
                (mkSt w3
                      (log st2 ++
                       [EvDownload (downloadUrl r);
                        EvDebug ("Successfully downloaded " ++ name tool
                                 ++ " v" ++ rel_version r)])))
      as [evs [Hlog4 Hevs]].
    rewrite Hex in Hlog4. cbn [snd log] in Hlog4.
    exists (EvFind (name tool) (Js.or_else (versionSpec tool) "*")
            :: page_requests (owner tool) (name tool) k
            ++ EvDownload (downloadUrl r)
            :: EvDebug ("Successfully downloaded " ++ name tool ++ " v"
                        ++ rel_version r)
            :: evs).
    split.
    + rewrite Hlog4, Hlog2. cbn [log]. log_shape.
    + constructor; [reflexivity |].
      apply Forall_app. split.
      * unfold page_requests. apply Forall_forall. intros e He.
        apply in_map_iff in He. destruct He as [p [<- _]]. reflexivity.
      * constructor; [reflexivity |]. constructor; [reflexivity |].
        exact Hevs.
Qed.

(** C6. On a cache miss, once the download is unpacked (or staged)
    in the extraction directory, and this directory being listed and
    its single entry, when it has exactly one, examined by
    [fs.lstat]: [checkOrInstallTool] calls the cache exactly once,
    for the tool's name and the located version, with the inner
    directory when the single entry is a directory, and with the
    extraction directory itself when the single entry is not a
    directory or when there are no or several entries.  The descent
    looks at the extraction directory only: it is not repeated inside
    the inner directory. *)
Theorem single_directory_descent (tool : Tool) (st : St W) (r : Release)
    (extractDir : string) (st4 : St W) (files : list string)
    (isDir : bool) :
  extracted_on_miss E tool st r extractDir st4 ->
  fs_readdir E (world st4) extractDir = Ok files ->
  (forall f, files = [f] ->
             fs_lstat_isDirectory E (world st4) (path_join E extractDir f)
             = Ok isDir) ->
  exists src,
    cacheDir_calls (events_of (checkOrInstallTool E tool) st)
    = [(src, name tool, rel_version r)]
    /\ fst (single_directory E extractDir st4) = Ok src
    /\ readdir_calls (events_of (single_directory E extractDir) st4)
       = [extractDir]
    /\ (forall f, files = [f] -> isDir = true ->
                  src = path_join E extractDir f)
    /\ (forall f, files = [f] -> isDir = false -> src = extractDir)
    /\ (length files <> 1 -> src = extractDir).
Proof.
  intros Hmiss Hfiles Hlstat.
  destruct (extracted_on_miss_run tool st r extractDir st4 Hmiss)
    as [Hrun [pre [Hlog4 Hpre]]].
  pose proof (single_directory_run W E extractDir st4 files isDir
                Hfiles Hlstat) as Hsd.
  assert (Hcalls : forall src evs,
             single_directory E extractDir st4
             = (Ok src, mkSt (world st4) (log st4 ++ evs)) ->
             cacheDir_calls evs = [] ->
             cacheDir_calls (events_of (checkOrInstallTool E tool) st)
             = [(src, name tool, rel_version r)]).
  { intros src evs Hsrc Hevs.
    pose proof (cache_extracted_calls W E tool (rel_version r) src st4
                  (mkSt (world st4) (log st4 ++ evs)) extractDir evs
                  Hsrc eq_refl Hevs) as Hc.
    destruct (quiet_log W (cache_extracted E tool (rel_version r) extractDir)
                st4 (quiet_cache_extracted W E tool _ _))
      as [tail Htail].
    rewrite (events_of_appended _ _ _ Htail) in Hc.
    erewrite events_of_appended.
    2:{ rewrite Hrun, (bind_ret_snd W), Htail, Hlog4, <- app_assoc.
        reflexivity. }
    unfold cacheDir_calls in *. rewrite flat_map_app.
    fold (cacheDir_calls pre).
    rewrite (before_cache_no_cacheDir pre Hpre). exact Hc. }
  destruct files as [| f [| g files]].
  - exists extractDir. rewrite Hsd. cbn [fst].
    split; [apply (Hcalls _ _ Hsd); reflexivity |].
    split; [reflexivity |].
    split; [erewrite events_of_appended by (rewrite Hsd; reflexivity);
            reflexivity |].
    repeat split; try discriminate.
  - exists (if isDir then path_join E extractDir f else extractDir).
    rewrite Hsd. cbn [fst].
    split; [apply (Hcalls _ _ Hsd); reflexivity |].
    split; [reflexivity |].
    split; [erewrite events_of_appended by (rewrite Hsd; reflexivity);
            reflexivity |].
    split; [intros f' Hf' ->; inversion Hf'; subst; reflexivity |].
    split; [intros f' Hf' ->; reflexivity |].
    intros Hlen. exfalso. apply Hlen. reflexivity.
  - exists extractDir. rewrite Hsd. cbn [fst].
    split; [apply (Hcalls _ _ Hsd); reflexivity |].
    split; [reflexivity |].
    split; [erewrite events_of_appended by (rewrite Hsd; reflexivity);
            reflexivity |].
    repeat split; try discriminate.
Qed.

(** *** Up to the cache *)

Lemma single_directory_events (x : string) (st : St W) :
  exists pre,
    snd (single_directory E x st) = mkSt (world st) (log st ++ pre)
    /\ filter is_permission_call pre = [].
Proof.
  destruct st as [w0 l0]. unfold single_directory. run_m.
  destruct (fs_readdir E w0 x) as [files | e | e];
    try (exists [EvReaddir x]; split; reflexivity).
  destruct files as [| f [| g files]];
    try (exists [EvReaddir x]; split; reflexivity).
  run_m.
  destruct (fs_lstat_isDirectory E w0 (path_join E x f))
    as [[|] | e | e];
    exists [EvReaddir x; EvLstat (path_join E x f)];
    (split; [f_equal; log_shape | reflexivity]).
Qed.

(** From the cache on, the installer is the permission repair; what
    it has called so far touches no permission. *)
Lemma cached_on_miss_run (tool : Tool) (st : St W) (r : Release)
    (d : string) (st6 : St W) :
  cached_on_miss E tool st r d st6 ->
  checkOrInstallTool E tool st
  = match handleBadBinaryPermissions E tool d st6 with
    | (Ok _, s) =>
        (Ok {| version := path_basename E (path_dirname E d);
               dir := d; tool := tool |}, s)
    | (Throw e, s) => (Throw e, s)
    | (Exit e, s) => (Exit e, s)
    end
  /\ exists pre,
       log st6 = log st ++ pre
       /\ filter is_permission_call pre = [].
Proof.
  intros [extractDir [st4 [src [st5 [w6 [Hmiss [Hsd [Hcache Hst6]]]]]]]].
  destruct (extracted_on_miss_run tool st r extractDir st4 Hmiss)
    as [Hrun [pre [Hlog4 Hpre]]].
  split.
  - rewrite Hrun.
    unfold cache_extracted, tc_cacheDir_, command.
    unfold bind at 1. unfold bind at 1. rewrite Hsd.
    unfold bind at 1. rewrite Hcache. rewrite <- Hst6.
    unfold bind at 1.
    destruct (handleBadBinaryPermissions E tool d st6)
      as [[[] | e | e] s]; reflexivity.
  - destruct (single_directory_events extractDir st4) as [sd [Hst5 Hsd']].
    rewrite Hsd in Hst5. cbn [snd] in Hst5.
    exists (pre ++ sd ++ [EvCacheDir src (name tool) (rel_version r)]).
    split.
    + rewrite Hst6, Hst5, Hlog4. cbn [log]. log_shape.
    + rewrite !filter_app, (before_cache_no_permission pre Hpre), Hsd'.
      reflexivity.
Qed.

(** C7. On a cache miss, once the directory is stored in the cache:
    on Windows [checkOrInstallTool] returns at once, with no
    permission check and no change.  Elsewhere it looks at the binary
    named by [bin] if given, else by the entry of the cache directory
    that equals the tool name up to case, else by the tool name.  When
    this binary is executable nothing is changed; when the
    executability check fails, that is no error: [fs.chmod(binary,
    "755")] is called and its outcome decides the outcome of the
    installation.  [fs.chmod] making a file executable, an
    installation that succeeds leaves the binary executable. *)
Theorem permission_repair (tool : Tool) (st : St W) (r : Release)
    (d : string) (st6 : St W) (files : list string) :
  cached_on_miss E tool st r d st6 ->
  let installed := {| version := path_basename E (path_dirname E d);
                      dir := d; tool := tool |} in
  let binary :=
    path_join E d (Spec.located_binary (js_toLowerCase E) tool files) in
  let out := checkOrInstallTool E tool st in
  let calls :=
    filter is_permission_call (events_of (checkOrInstallTool E tool) st) in
  (proc_platform E = "win32" ->
   out = (Ok installed, st6) /\ calls = [])
  /\ (proc_platform E <> "win32" ->
      (Js.otruthy (bin tool) = false ->
       fs_readdir E (world st6) d = Ok files) ->
      (fs_access_x E (world st6) binary = true ->
       fst out = Ok installed
       /\ world (snd out) = world st6
       /\ calls = [EvAccess binary])
      /\ (fs_access_x E (world st6) binary = false ->
          fst out
          = match fst (fs_chmod E binary "755" (world st6)) with
            | Ok _ => Ok installed
            | Throw e => Throw e
            | Exit e => Exit e
            end
          /\ world (snd out) = snd (fs_chmod E binary "755" (world st6))
          /\ calls = [EvAccess binary; EvChmod binary "755"])
      /\ ((forall w1, fs_chmod E binary "755" (world st6) = (Ok tt, w1) ->
                      fs_access_x E w1 binary = true) ->
          forall i, fst out = Ok i ->
                    i = installed
                    /\ fs_access_x E (world (snd out)) binary = true)).
Proof.
  intros Hcached installed binary out calls.
  destruct (cached_on_miss_run tool st r d st6 Hcached)
    as [Hrun [pre [Hlog6 Hpre]]].
  fold installed in Hrun.
  assert (Hkey : forall (res : result unit) w evs,
             handleBadBinaryPermissions E tool d st6
             = (res, mkSt w (log st6 ++ evs)) ->
             fst out = match res with
                       | Ok _ => Ok installed
                       | Throw e => Throw e
                       | Exit e => Exit e
                       end
             /\ world (snd out) = w
             /\ calls = filter is_permission_call evs).
  { intros res w evs Hhbp. subst out calls.
    assert (Hout : checkOrInstallTool E tool st
                   = (match res with
                      | Ok _ => Ok installed
                      | Throw e => Throw e
                      | Exit e => Exit e
                      end, mkSt w (log st6 ++ evs)))
      by (rewrite Hrun, Hhbp; destruct res; reflexivity).
    erewrite events_of_appended
      by (rewrite Hout; cbn [snd log]; rewrite Hlog6, <- app_assoc;
          reflexivity).
    rewrite Hout, filter_app, Hpre. repeat split. }
  split.
  - intros Hwin.
    pose proof (handleBadBinaryPermissions_windows W E tool d st6 Hwin)
      as Hhbp.
    split.
    + subst out. rewrite Hrun, Hhbp. reflexivity.
    + destruct (Hkey (Ok tt) (world st6) []) as [_ [_ Hcalls]];
        [| exact Hcalls].
      rewrite Hhbp. destruct st6 as [w l]. cbn [world log].
      now rewrite app_nil_r.
  - intros Hplat Hfiles.
    destruct (fs_chmod E binary "755" (world st6)) as [rc w1] eqn:Hchmod.
    pose proof (handleBadBinaryPermissions_run W E tool d st6 files rc w1
                  Hplat Hfiles Hchmod) as Hhbp.
    fold binary in Hhbp. cbv zeta in Hhbp.
    assert (Hfilter : forall l,
               filter is_permission_call
                 ((if Js.otruthy (bin tool) then [] else [EvReaddir d])
                  ++ l)
               = filter is_permission_call l)
      by (intros l; destruct (Js.otruthy (bin tool)); reflexivity).
    destruct (fs_access_x E (world st6) binary) eqn:Hacc.
    + destruct (Hkey _ _ _ Hhbp) as [Hfst [Hworld Hcalls]].
      rewrite Hfilter in Hcalls.
      split; [intros _; repeat split; assumption |].
      split; [discriminate |].
      intros _ i Hi. rewrite Hfst in Hi. inversion Hi; subst i.
      split; [reflexivity |]. rewrite Hworld. exact Hacc.
    + split; [discriminate |].
      destruct rc as [[] | e | e];
        destruct (Hkey _ _ _ Hhbp) as [Hfst [Hworld Hcalls]];
        rewrite Hfilter in Hcalls;
        (split; [intros _; repeat split; assumption |]);
        intros Hspec i Hi; rewrite Hfst in Hi; try discriminate Hi.
      inversion Hi; subst i. split; [reflexivity |].
      rewrite Hworld. apply Hspec. reflexivity.
Qed.

End OnMiss.

Lemma extracted_on_miss_linux :
  extracted_on_miss Sim.linux Sim.just (mkSt Sim.fresh [])
    Stages.gnu_release "/tmp/extract"
    (Stages.extracted Sim.linux Sim.just Stages.gnu_release Sim.fresh).
Proof.
  exists EmptyString,
         (Stages.located Sim.linux Sim.just Sim.fresh),
         "/tmp/download",
         (Stages.downloaded Sim.linux Sim.just Stages.gnu_release Sim.fresh).
  repeat split; vm_compute; reflexivity.
Defined.

Lemma cached_on_miss_linux :
  cached_on_miss Sim.linux Sim.just (mkSt Sim.fresh [])
    Stages.gnu_release "/cache/just/1.2.0/x64"
    (Stages.cached Sim.linux Sim.just Stages.gnu_release Sim.fresh
                   "/tmp/extract/just-1.2.0").
Proof.
  exists "/tmp/extract",
         (Stages.extracted Sim.linux Sim.just Stages.gnu_release Sim.fresh),
         "/tmp/extract/just-1.2.0",
         (Stages.normalized Sim.linux Sim.just Stages.gnu_release Sim.fresh),
         (world (Stages.cached Sim.linux Sim.just Stages.gnu_release
                   Sim.fresh "/tmp/extract/just-1.2.0")).
  split; [exact extracted_on_miss_linux |].
  repeat split; vm_compute; reflexivity.
Defined.

Lemma cached_on_miss_windows :
  cached_on_miss Sim.windows Sim.just (mkSt Stages.win_fresh [])
    Stages.win_release "/cache/just/1.2.0/x64"
    (Stages.cached Sim.windows Sim.just Stages.win_release Stages.win_fresh
                   "/tmp/extract").
Proof.
  exists "/tmp/extract",
         (Stages.extracted Sim.windows Sim.just Stages.win_release
                           Stages.win_fresh),
         "/tmp/extract",
         (Stages.normalized Sim.windows Sim.just Stages.win_release
                            Stages.win_fresh),
         (world (Stages.cached Sim.windows Sim.just Stages.win_release
                   Stages.win_fresh "/tmp/extract")).
  split.
  - exists EmptyString,
           (Stages.located Sim.windows Sim.just Stages.win_fresh),
           "/tmp/download",
           (Stages.downloaded Sim.windows Sim.just Stages.win_release
                              Stages.win_fresh).
    repeat split; vm_compute; reflexivity.
  - repeat split; vm_compute; reflexivity.
Defined.

(** On a fresh Linux runner the archive of just 1.2.0 wraps its content
    in the folder [just-1.2.0]: this folder is what the cache gets. *)
Lemma single_directory_descent_witness :
  exists src,
    cacheDir_calls
      (events_of (checkOrInstallTool Sim.linux Sim.just) (mkSt Sim.fresh []))
    = [(src, "just", "1.2.0")]
    /\ fst (single_directory Sim.linux "/tmp/extract"
              (Stages.extracted Sim.linux Sim.just Stages.gnu_release
                                Sim.fresh))
       = Ok src
    /\ readdir_calls
         (events_of (single_directory Sim.linux "/tmp/extract")
            (Stages.extracted Sim.linux Sim.just Stages.gnu_release
                              Sim.fresh))
       = ["/tmp/extract"]
    /\ (forall f, ["just-1.2.0"] = [f] -> true = true ->
                  src = Sim.join "/tmp/extract" f)
    /\ (forall f, ["just-1.2.0"] = [f] -> true = false ->
                  src = "/tmp/extract")
    /\ (length ["just-1.2.0"] <> 1 -> src = "/tmp/extract").
Proof.
  apply (single_directory_descent Sim.World Sim.linux Sim.just
           (mkSt Sim.fresh []) Stages.gnu_release "/tmp/extract"
           (Stages.extracted Sim.linux Sim.just Stages.gnu_release Sim.fresh)
           ["just-1.2.0"] true).
  - exact extracted_on_miss_linux.
  - vm_compute. reflexivity.
  - intros f Hf. inversion Hf; subst f. vm_compute. reflexivity.
Defined.

(** On Linux the binary [just] of the cached directory comes out of
    the archive without its executable bit, and is executable when the
    installer returns; on Windows the installer checks nothing. *)
Lemma permission_repair_witness :
  (checkOrInstallTool Sim.windows Sim.just (mkSt Stages.win_fresh [])
   = (Ok {| version := "1.2.0"; dir := "/cache/just/1.2.0/x64";
            tool := Sim.just |},
      Stages.cached Sim.windows Sim.just Stages.win_release Stages.win_fresh
                    "/tmp/extract")
   /\ filter is_permission_call
        (events_of (checkOrInstallTool Sim.windows Sim.just)
                   (mkSt Stages.win_fresh []))
      = [])
  /\ Sim.access_x
       (world (Stages.cached Sim.linux Sim.just Stages.gnu_release Sim.fresh
                 "/tmp/extract/just-1.2.0"))
       "/cache/just/1.2.0/x64/just" = false
  /\ filter is_permission_call
       (events_of (checkOrInstallTool Sim.linux Sim.just) (mkSt Sim.fresh []))
     = [EvAccess "/cache/just/1.2.0/x64/just";
        EvChmod "/cache/just/1.2.0/x64/just" "755"]
  /\ fst (checkOrInstallTool Sim.linux Sim.just (mkSt Sim.fresh []))
     = Ok {| version := "1.2.0"; dir := "/cache/just/1.2.0/x64";
             tool := Sim.just |}
  /\ Sim.access_x
       (world (snd (checkOrInstallTool Sim.linux Sim.just
                      (mkSt Sim.fresh []))))
       "/cache/just/1.2.0/x64/just" = true.
Proof.
  split.
  - apply (proj1 (permission_repair Sim.World Sim.windows Sim.just
                    (mkSt Stages.win_fresh []) Stages.win_release
                    "/cache/just/1.2.0/x64"
                    (Stages.cached Sim.windows Sim.just Stages.win_release
                                   Stages.win_fresh "/tmp/extract")
                    [] cached_on_miss_windows)).
    reflexivity.
  - split; [vm_compute; reflexivity |].
    assert (Hplat : proc_platform Sim.linux <> "win32")
      by (simpl; discriminate).
    assert (Hfiles : Js.otruthy (bin Sim.just) = false ->
                     fs_readdir Sim.linux
                       (world (Stages.cached Sim.linux Sim.just
                                 Stages.gnu_release Sim.fresh
                                 "/tmp/extract/just-1.2.0"))
                       "/cache/just/1.2.0/x64"
                     = Ok ["just"; "README.md"])
      by (intros _; vm_compute; reflexivity).
    destruct (proj2 (permission_repair Sim.World Sim.linux Sim.just
                       (mkSt Sim.fresh []) Stages.gnu_release
                       "/cache/just/1.2.0/x64"
                       (Stages.cached Sim.linux Sim.just Stages.gnu_release
                                      Sim.fresh "/tmp/extract/just-1.2.0")
                       ["just"; "README.md"] cached_on_miss_linux)
                Hplat Hfiles)
      as [_ [Hrepair Hexec]].
    assert (Hacc : Sim.access_x
                     (world (Stages.cached Sim.linux Sim.just
                               Stages.gnu_release Sim.fresh
                               "/tmp/extract/just-1.2.0"))
                     "/cache/just/1.2.0/x64/just" = false)
      by (vm_compute; reflexivity).
    destruct (Hrepair Hacc) as [Hfst [_ Hcalls]].
    split; [exact Hcalls |].
    assert (Hok : fst (checkOrInstallTool Sim.linux Sim.just
                         (mkSt Sim.fresh []))
                  = Ok {| version := "1.2.0";
                          dir := "/cache/just/1.2.0/x64";
                          tool := Sim.just |})
      by (rewrite Hfst; vm_compute; reflexivity).
    split; [exact Hok |].
    refine (proj2 (Hexec _ _ Hok)).
    intros w1 Hchmod. vm_compute in Hchmod. inversion Hchmod; subst w1.
    vm_compute. reflexivity.
Defined.
